(** * A shallow embedding of the code editor's diagnostic pipeline

    The repository is a React component ([CodeEditor]) together with two
    static tables ([LANGUAGE_VERSIONS], [CODE_SNIPPETS]).  The only logic is
    in [runCode]: the stderr text of an execution result is split into
    lines, each line is searched with the regular expression
    [/line (\d+)/], and every hit is stored in a plain JavaScript object
    keyed by the reported line number minus one.  The keys of that object
    are then turned into Monaco decorations.

    The embedding follows the JavaScript semantics the code relies on:
    - strings are sequences of characters ([string]); the code inspects
      characters only by comparing them with the letters of "line ", the
      decimal digits and the newline, so the width of a character plays no
      role;
    - numbers are IEEE doubles; only integral values, the infinities and
      NaN can arise here, so a Number is an integer in [Z] that is exactly
      representable, an infinity, or NaN, and every arithmetic result is
      rounded to the nearest representable value;
    - an object is the list of its own properties in creation order;
      reading a property falls back on [Object.prototype], and the own keys
      are enumerated with the array indices first, in ascending order. *)

From Stdlib Require Import ZArith Lia Bool List Ascii String.
From Stdlib Require Import Sorting.Sorted Sorting.Permutation.
Import ListNotations.

Local Open Scope string_scope.
Local Open Scope Z_scope.

(** ** Characters and strings *)

Definition LF : ascii := "010"%char.
Definition TAB : ascii := "009"%char.
Definition DQUOTE : ascii := "034"%char.

Definition nl : string := String LF "".
Definition tab : string := String TAB "".
Definition dq : string := String DQUOTE "".

(** [\d] without the unicode flag: the ten ASCII digits. *)
Definition is_digit (c : ascii) : bool :=
  let n := nat_of_ascii c in (48 <=? n)%nat && (n <=? 57)%nat.

Definition digit_value (c : ascii) : Z := Z.of_nat (nat_of_ascii c) - 48.

Definition digit_char (d : Z) : ascii := ascii_of_nat (Z.to_nat (d + 48)).

Fixpoint all_digits (s : string) : bool :=
  match s with
  | "" => true
  | String c s' => is_digit c && all_digits s'
  end.

(** The longest prefix of decimal digits, as a greedy [\d*] takes it. *)
Fixpoint take_digits (s : string) : string :=
  match s with
  | "" => ""
  | String c s' => if is_digit c then String c (take_digits s') else ""
  end.

Fixpoint drop_digits (s : string) : string :=
  match s with
  | "" => ""
  | String c s' => if is_digit c then drop_digits s' else s
  end.

Definition starts_with_digit (s : string) : bool :=
  match s with
  | "" => false
  | String c _ => is_digit c
  end.

(** The value of a run of digits read most significant digit first,
    continuing from [acc]. *)
Fixpoint digits_value (s : string) (acc : Z) : Z :=
  match s with
  | "" => acc
  | String c s' => digits_value s' (acc * 10 + digit_value c)
  end.

(** Decimal digits of a nonnegative integer, most significant first. *)
Fixpoint decimal_fuel (fuel : nat) (n : Z) (acc : string) : string :=
  match fuel with
  | O => acc
  | S f =>
      let acc' := String (digit_char (n mod 10)) acc in
      if n <? 10 then acc' else decimal_fuel f (n / 10) acc'
  end.

Definition decimal (n : Z) : string :=
  decimal_fuel (S (Z.to_nat (Z.log2 n))) n "".

(** ** Numbers *)

Module JSNumber.

(** The Number values that occur: NaN, the two infinities and the integral
    doubles.  The sign of zero is not tracked: the only negative Number the
    component ever builds is -1. *)
Inductive number : Type :=
| NaN
| Inf (negative : bool)
| Finite (z : Z).

Definition number_eqb (a b : number) : bool :=
  match a, b with
  | NaN, NaN => true
  | Inf s, Inf t => Bool.eqb s t
  | Finite x, Finite y => x =? y
  | _, _ => false
  end.

(** Round a nonnegative integer to the nearest double, ties to the even
    significand; values that round to 2^1024 or more become Infinity. *)
Definition round_nonneg (n : Z) : number :=
  if n <? 2 ^ 53 then Finite n
  else
    let e := Z.log2 n - 52 in
    let q := n / 2 ^ e in
    let r := n mod 2 ^ e in
    let half := 2 ^ (e - 1) in
    let q' := if r <? half then q
              else if half <? r then q + 1
              else if Z.even q then q else q + 1 in
    let v := q' * 2 ^ e in
    if 2 ^ 1024 <=? v then Inf false else Finite v.

Definition negate (x : number) : number :=
  match x with
  | NaN => NaN
  | Inf s => Inf (negb s)
  | Finite z => Finite (- z)
  end.

Definition round_double (n : Z) : number :=
  if n <? 0 then negate (round_nonneg (- n)) else round_nonneg n.

(** [x + k] and [x - k] for an integer literal [k]. *)
Definition add_int (x : number) (k : Z) : number :=
  match x with
  | Finite z => round_double (z + k)
  | _ => x
  end.

Definition sub_int (x : number) (k : Z) : number := add_int x (- k).

(** White space that [parseInt] skips at the start of its argument. *)
Definition is_space (c : ascii) : bool :=
  let n := nat_of_ascii c in
  ((9 <=? n)%nat && (n <=? 13)%nat) || (n =? 32)%nat || (n =? 160)%nat.

Fixpoint skip_spaces (s : string) : string :=
  match s with
  | "" => ""
  | String c s' => if is_space c then skip_spaces s' else s
  end.

Definition parse_unsigned (s : string) : number :=
  let d := take_digits s in
  match d with
  | "" => NaN
  | _ => round_double (digits_value d 0)
  end.

(** [parseInt(s, 10)]: optional white space, optional sign, then the
    longest run of decimal digits; NaN when that run is empty. *)
Definition parseInt (s : string) : number :=
  match skip_spaces s with
  | String "-" s' => negate (parse_unsigned s')
  | String "+" s' => parse_unsigned s'
  | s' => parse_unsigned s'
  end.

(** The decimal numeral closest to the double [z > 0] among those with the
    fewest significant digits that still read back as [z]
    (Number::toString): the search tries the multiples of 10^E around [z],
    largest E first. *)
Definition reads_back (z v : Z) : bool :=
  (0 <? v) && number_eqb (round_nonneg v) (Finite z).

Definition shortest_at (z : Z) (E : nat) : option Z :=
  let p := 10 ^ Z.of_nat E in
  let lo := z / p * p in
  let hi := lo + p in
  match reads_back z lo, reads_back z hi with
  | true, true =>
      if z - lo <? hi - z then Some lo
      else if hi - z <? z - lo then Some hi
      else if Z.even (lo / p) then Some lo else Some hi
  | true, false => Some lo
  | false, true => Some hi
  | false, false => None
  end.

Fixpoint shortest_from (E : nat) (z : Z) : Z :=
  match shortest_at z E with
  | Some v => v
  | None =>
      match E with
      | O => z
      | S E' => shortest_from E' z
      end
  end.

Definition shortest (z : Z) : Z := shortest_from (Z.to_nat (Z.log2 z)) z.

(** Remove the trailing zeros of a decimal numeral. *)
Fixpoint strip_zeros_fuel (fuel : nat) (v : Z) : Z :=
  match fuel with
  | O => v
  | S f => if (v mod 10 =? 0) && (0 <? v) then strip_zeros_fuel f (v / 10) else v
  end.

Definition exponent_form (v : Z) : string :=
  let n := Z.of_nat (String.length (decimal v)) in
  let s := decimal (strip_zeros_fuel (String.length (decimal v)) v) in
  match s with
  | String c "" => String c "" ++ "e+" ++ decimal (n - 1)
  | String c rest => String c "" ++ "." ++ rest ++ "e+" ++ decimal (n - 1)
  | "" => ""
  end.

Definition positive_to_string (z : Z) : string :=
  let v := shortest z in
  if v <? 10 ^ 21 then decimal v else exponent_form v.

(** [String(x)], the property key a Number is converted to. *)
Definition ToString (x : number) : string :=
  match x with
  | NaN => "NaN"
  | Inf false => "Infinity"
  | Inf true => "-Infinity"
  | Finite z =>
      if z =? 0 then "0"
      else if z <? 0 then "-" ++ positive_to_string (- z)
      else positive_to_string z
  end.

End JSNumber.
Import JSNumber.

(** ** Ordinary objects *)

Module JSObject.

(** The own properties of an object literal, in the order in which they
    were created.  Both objects of the component hold strings only. *)
Definition obj : Type := list (string * string).

Definition empty : obj := [].

Fixpoint get_own (o : obj) (k : string) : option string :=
  match o with
  | [] => None
  | (k', v) :: o' => if String.eqb k' k then Some v else get_own o' k
  end.

(** [o[k] = v]: an existing property keeps its place, a new one is added
    after all the others. *)
Fixpoint set (o : obj) (k v : string) : obj :=
  match o with
  | [] => [(k, v)]
  | (k', v') :: o' =>
      if String.eqb k' k then (k, v) :: o' else (k', v') :: set o' k v
  end.

Definition own_names (o : obj) : list string := map fst o.

(** An array index is the canonical decimal numeral of an integer between
    0 and 2^32 - 2. *)
Definition is_array_index (k : string) : bool :=
  match k with
  | "" => false
  | String c rest =>
      all_digits k
      && (negb (Ascii.eqb c "0") || String.eqb rest "")
      && (digits_value k 0 <=? 2 ^ 32 - 2)
  end.

Definition index_value (k : string) : Z := digits_value k 0.

Fixpoint insert_index (k : string) (l : list string) : list string :=
  match l with
  | [] => [k]
  | h :: t =>
      if index_value k <=? index_value h then k :: l
      else h :: insert_index k t
  end.

Definition sort_indices (l : list string) : list string :=
  fold_right insert_index [] l.

(** [Object.keys] (and [Object.entries]) of an object whose properties are
    all enumerable: the array indices in ascending numeric order, then the
    other names in creation order. *)
Definition keys (o : obj) : list string :=
  sort_indices (filter is_array_index (own_names o))
  ++ filter (fun k => negb (is_array_index k)) (own_names o).

(** What a property read can produce. *)
Inductive value : Type :=
| VUndefined
| VString (s : string)
| VInherited (name : string).

(** The properties every object literal inherits from [Object.prototype]. *)
Definition ObjectPrototype : list string :=
  [ "constructor"; "hasOwnProperty"; "isPrototypeOf"; "propertyIsEnumerable";
    "toLocaleString"; "toString"; "valueOf"; "__proto__";
    "__defineGetter__"; "__defineSetter__"; "__lookupGetter__";
    "__lookupSetter__" ].

Definition inherited (k : string) : bool :=
  existsb (String.eqb k) ObjectPrototype.

(** [o[k]]: the own property when there is one, else the inherited one,
    else [undefined].  A property read never throws. *)
Definition get (o : obj) (k : string) : value :=
  match get_own o k with
  | Some v => VString v
  | None => if inherited k then VInherited k else VUndefined
  end.

End JSObject.
Import JSObject.

(** ** The language registry (constants.js) *)

Definition LANGUAGE_VERSIONS : obj :=
  [ ("python", "3.10.0"); ("java", "15.0.2") ].

Definition CODE_SNIPPETS : obj :=
  [ ("python",
     nl ++ "def greet(name):" ++ nl ++ tab ++ "print(" ++ dq ++ "Hello, " ++ dq
     ++ " + name + " ++ dq ++ "!" ++ dq ++ ")" ++ nl ++ nl
     ++ "greet(" ++ dq ++ "Aro" ++ dq ++ ")" ++ nl);
    ("java",
     nl ++ "public class HelloWorld {" ++ nl ++ tab
     ++ "public static void main(String[] args) {" ++ nl ++ tab ++ tab
     ++ "System.out.println(" ++ dq ++ "Hello World" ++ dq ++ ");" ++ nl ++ tab
     ++ "}" ++ nl ++ "}" ++ nl);
    ("javascript",
     nl ++ "function greet(name) {" ++ nl ++ tab ++ "console.log(" ++ dq
     ++ "Hello, " ++ dq ++ " + name + " ++ dq ++ "!" ++ dq ++ ");" ++ nl ++ "}"
     ++ nl ++ nl ++ "greet(" ++ dq ++ "Aro" ++ dq ++ ");" ++ nl);
    ("typescript",
     nl ++ "type Params = {" ++ nl ++ tab ++ "name: string;" ++ nl ++ "}" ++ nl
     ++ nl ++ "function greet(data: Params) {" ++ nl ++ tab ++ "console.log("
     ++ dq ++ "Hello, " ++ dq ++ " + data.name + " ++ dq ++ "!" ++ dq ++ ");"
     ++ nl ++ "}" ++ nl ++ nl ++ "greet({ name: " ++ dq ++ "Aro" ++ dq ++ " });"
     ++ nl);
    ("csharp",
     "using System;" ++ nl ++ nl ++ "namespace HelloWorld" ++ nl ++ "{" ++ nl
     ++ tab ++ "class Hello { " ++ nl ++ tab ++ tab
     ++ "static void Main(string[] args) {" ++ nl ++ tab ++ tab ++ tab
     ++ "Console.WriteLine(" ++ dq ++ "Hello World in C#" ++ dq ++ ");" ++ nl
     ++ tab ++ tab ++ "}" ++ nl ++ tab ++ "}" ++ nl ++ "}" ++ nl);
    ("php",
     "<?php" ++ nl ++ nl ++ "$name = 'Aro';" ++ nl ++ "echo $name;" ++ nl) ].

(** The two reads the spec calls the registry lookup:
    [LANGUAGE_VERSIONS[language]] and [CODE_SNIPPETS[language]]. *)
Record LanguageEntry : Type := {
  runtimeVersion : value;
  starterSnippet : value
}.

Definition getEntry (languageId : string) : LanguageEntry :=
  {| runtimeVersion := get LANGUAGE_VERSIONS languageId;
     starterSnippet := get CODE_SNIPPETS languageId |}.

(** ** The diagnostic mapper (runCode) *)

(** [s.split("\n")]. *)
Fixpoint split (s : string) : list string :=
  match s with
  | "" => [""]
  | String c s' =>
      if Ascii.eqb c LF then "" :: split s'
      else match split s' with
           | [] => [String c ""]
           | l :: ls => String c l :: ls
           end
  end.

(** [s] without its prefix [p], when it has that prefix. *)
Fixpoint strip_prefix (p s : string) : option string :=
  match p, s with
  | "", _ => Some s
  | String a p', String b s' =>
      if Ascii.eqb a b then strip_prefix p' s' else None
  | String _ _, "" => None
  end.

(** [/line (\d+)/] tried at the start of [s]: the literal text "line ",
    then as many digits as there are, at least one; the result is the
    text of group 1. *)
Definition match_here (s : string) : option string :=
  match strip_prefix "line " s with
  | Some rest =>
      match take_digits rest with
      | "" => None
      | d => Some d
      end
  | None => None
  end.

(** [line.match(/line (\d+)/)]: the leftmost position where the pattern
    matches; the result is [match[1]], or [None] for [null]. *)
Fixpoint regex_match (line : string) : option string :=
  match match_here line with
  | Some d => Some d
  | None =>
      match line with
      | "" => None
      | String _ line' => regex_match line'
      end
  end.

(** [result.run.stderr ? result.run.stderr.split("\n") : []]; an absent
    stderr and the empty string are both falsy. *)
Definition errorLines (stderr : option string) : list string :=
  match stderr with
  | None => []
  | Some "" => []
  | Some s => split s
  end.

(** [result.run.stdout || ""]. *)
Definition outputLines (stdout : option string) : string :=
  match stdout with
  | None => ""
  | Some s => s
  end.

(** [parseInt(match[1], 10) - 1]. *)
Definition lineNumber (digits : string) : number :=
  sub_int (parseInt digits) 1.

(** The body of the [forEach] callback. *)
Definition record_line (errorMap : obj) (line : string) : obj :=
  match regex_match line with
  | Some d => set errorMap (ToString (lineNumber d)) line
  | None => errorMap
  end.

(** [const errorMap = {}; errorLines.forEach(...)]. *)
Definition errorMap (lines : list string) : obj :=
  fold_left record_line lines empty.

Definition extractDiagnostics (stderr : option string) : obj :=
  errorMap (errorLines stderr).

Record Range : Type := {
  startLineNumber : number;
  startColumn : Z;
  endLineNumber : number;
  endColumn : Z
}.

Record Decoration : Type := {
  range : Range;
  isWholeLine : bool;
  className : string;
  glyphMarginClassName : string;
  hoverMessage : value
}.

(** The line shown for a key: [parseInt(lineNumber, 10) + 1]. *)
Definition displayLine (key : string) : number :=
  add_int (parseInt key) 1.

Definition decoration (errors : obj) (key : string) : Decoration :=
  {| range := {| startLineNumber := displayLine key; startColumn := 1;
                 endLineNumber := displayLine key; endColumn := 1 |};
     isWholeLine := true;
     className := "error-decoration";
     glyphMarginClassName := "error-icon";
     hoverMessage := get errors key |}.

(** [Object.keys(errorMap).map(...)]. *)
Definition decorations (errors : obj) : list Decoration :=
  map (decoration errors) (keys errors).

Definition toAnnotations : obj -> list Decoration := decorations.

(** The entries of the error list in the sidebar:
    [Object.entries(errors).map(...)], each with its line and its text. *)
Definition errorEntries (errors : obj) : list (number * value) :=
  map (fun k => (displayLine k, get errors k)) (keys errors).

(** ** The component and its state *)

(** The mounted Monaco editor: its text ([getValue]) and the decorations
    the component has handed to it; [deltaDecorations([], ds)] takes none
    back and hands over [ds].  What the editor makes of a range that lies
    outside its text is its own affair and is not modelled. *)
Record Editor : Type := {
  getValue : string;
  editorDecorations : list Decoration
}.

Definition deltaDecorations (ed : Editor) (ds : list Decoration) : Editor :=
  {| getValue := getValue ed;
     editorDecorations := editorDecorations ed ++ ds |}.

(** The state [runCode] reads and writes: the editor behind [editorRef],
    the [language], [errors] and [output] state variables, and what has
    been written with [console.error]. *)
Record State : Type := {
  editorRef : option Editor;
  language : string;
  errors : obj;
  output : string;
  console : list string
}.

Definition initialState : State :=
  {| editorRef := None; language := "python"; errors := empty;
     output := ""; console := [] |}.

Definition onMount (st : State) (ed : Editor) : State :=
  {| editorRef := Some ed; language := language st; errors := errors st;
     output := output st; console := console st |}.

(** The part of the service's answer the component reads:
    [result.run.stdout] and [result.run.stderr]. *)
Record Run : Type := {
  stdout : option string;
  stderr : option string
}.

(** An answer without [run] stands for every answer on which reading
    [result.run.stderr] throws. *)
Record Result : Type := { run : option Run }.

(** How [await executeCode(language, sourceCode)] ends. *)
Inductive Outcome : Type :=
| Throws (error : string)
| Returns (result : Result).

(** How the promise of [runCode] settles. *)
Inductive Completion : Type :=
| Resolved (st : State)
| Rejected (error : string).

Definition consoleError (st : State) (error : string) : State :=
  {| editorRef := editorRef st; language := language st; errors := errors st;
     output := output st;
     console := console st ++ ["Error executing code: " ++ error] |}.

(** [setErrors(errorMap); setOutput(outputLines)] followed by the
    decoration of the editor, which is still mounted. *)
Definition showResult (st : State) (ed : Editor) (r : Run) : State :=
  let errorMap := extractDiagnostics (stderr r) in
  {| editorRef := Some (deltaDecorations ed (decorations errorMap));
     language := language st;
     errors := errorMap;
     output := outputLines (stdout r);
     console := console st |}.

(** [runCode], with the remote service as a function of the language and
    the source text.  Reading [getValue] of an unmounted editor throws
    outside the [try]; everything thrown inside it is caught and logged. *)
Definition runCode (executeCode : string -> string -> Outcome) (st : State)
  : Completion :=
  match editorRef st with
  | None => Rejected "TypeError"
  | Some ed =>
      let sourceCode := getValue ed in
      match sourceCode with
      | "" => Resolved st
      | _ =>
          match executeCode (language st) sourceCode with
          | Throws error => Resolved (consoleError st error)
          | Returns result =>
              match run result with
              | None => Resolved (consoleError st "TypeError")
              | Some r => Resolved (showResult st ed r)
              end
          end
      end
  end.

(** ** Notions used to state the properties *)

(** The lines of the stderr text, whether or not the component looks at
    them. *)
Definition stderr_lines (stderr : option string) : list string :=
  match stderr with
  | None => []
  | Some s => split s
  end.

(** [s] begins with "line " and a decimal digit. *)
Definition begins_pattern (s : string) : Prop :=
  exists c rest, s = "line " ++ String c rest /\ is_digit c = true.

Definition contains_pattern (line : string) : Prop :=
  exists pre suf, line = pre ++ suf /\ begins_pattern suf.

(** [d] is the digit run of the first occurrence of the pattern in
    [line]: nothing before it begins the pattern, and the run is
    maximal. *)
Definition first_match (line d : string) : Prop :=
  exists pre post,
    line = pre ++ "line " ++ d ++ post
    /\ d <> "" /\ all_digits d = true /\ starts_with_digit post = false
    /\ forall pre' suf',
         line = pre' ++ suf' ->
         (String.length pre' < String.length pre)%nat ->
         ~ begins_pattern suf'.

(** The property key a line is filed under, if it matches. *)
Definition key_of (line : string) : option string :=
  match regex_match line with
  | Some d => Some (ToString (lineNumber d))
  | None => None
  end.

Definition has_key (k : string) (line : string) : bool :=
  match key_of line with
  | Some k' => String.eqb k' k
  | None => false
  end.

Definition mem (k : string) (l : list string) : bool :=
  existsb (String.eqb k) l.

(** The keys of the matching lines in stream order, with repetitions. *)
Definition matched_keys (lines : list string) : list string :=
  flat_map (fun l => match key_of l with Some k => [k] | None => [] end) lines.

(** Each element once, at the place of its first occurrence. *)
Fixpoint first_occurrences (ks : list string) : list string :=
  match ks with
  | [] => []
  | k :: ks' =>
      k :: filter (fun k' => negb (String.eqb k' k)) (first_occurrences ks')
  end.

(** The order in which the keys were first inserted. *)
Definition insertion_order (lines : list string) : list string :=
  first_occurrences (matched_keys lines).

(** The last line of the stream filed under [k]. *)
Definition last_with_key (k : string) (lines : list string) : option string :=
  find (has_key k) (rev lines).

Definition le_index (a b : string) : Prop := index_value a <= index_value b.

Definition ascending (ks : list string) : Prop :=
  StronglySorted (fun a b => index_value a < index_value b) ks.

(** The sample inputs of the specification. *)
Definition traceback_head : string :=
  "File " ++ dq ++ "a.py" ++ dq ++ ", line 3".

Definition traceback : string :=
  traceback_head ++ nl ++ "    print(x)" ++ nl
  ++ "NameError: name 'x' is not defined".

Definition warning_5 : string := "warning: unused variable at line 5".
Definition error_5 : string := "error: bad operand at line 5".
Definition two_on_line_5 : string := warning_5 ++ nl ++ error_5.

Definition sampleEditor : Editor :=
  {| getValue := "print(x)"; editorDecorations := [] |}.

Definition mounted : State := onMount initialState sampleEditor.

Definition failingService (_ _ : string) : Outcome := Throws "Network Error".

Definition answering (r : Run) (_ _ : string) : Outcome :=
  Returns {| run := Some r |}.

Definition mixed_indices : string :=
  "line 4294967296" ++ nl ++ "line 0" ++ nl ++ "line 7" ++ nl ++ "line 2".

(** ** The sidebar *)

(** [output || "Output will appear here"]. *)
Definition outputBox (output : string) : string :=
  match output with
  | "" => "Output will appear here"
  | _ => output
  end.

(** [Object.entries(errors)]. *)
Definition entries (errors : obj) : list (string * value) :=
  map (fun k => (k, get errors k)) (keys errors).

(** The text React shows for a child: a string as it is, nothing for
    [undefined] or for a function. *)
Definition render_value (v : value) : string :=
  match v with
  | VString s => s
  | _ => ""
  end.

(** One entry of the error list: the [key] and [label] of the tooltip,
    its [aria-label] and the text of the line. *)
Record ErrorItem : Type := {
  itemKey : string;
  tooltipLabel : value;
  ariaLabel : string;
  itemText : string
}.

Definition errorItem (entry : string * value) : ErrorItem :=
  let (lineNumber, error) := entry in
  {| itemKey := lineNumber;
     tooltipLabel := error;
     ariaLabel := "Error at line " ++ ToString (displayLine lineNumber);
     itemText := "Line " ++ ToString (displayLine lineNumber) ++ ": "
                 ++ render_value error |}.

Inductive ErrorBox : Type :=
| NoErrors
| ErrorList (items : list ErrorItem).

(** [Object.keys(errors).length > 0 ? Object.entries(errors).map(...)
    : "No errors"]. *)
Definition errorBox (errors : obj) : ErrorBox :=
  if (0 <? List.length (keys errors))%nat
  then ErrorList (map errorItem (entries errors))
  else NoErrors.

(** What the two boxes of the open sidebar show. *)
Record Sidebar : Type := {
  outputText : string;
  errorBoxContent : ErrorBox
}.

Definition sidebar (st : State) : Sidebar :=
  {| outputText := outputBox (output st);
     errorBoxContent := errorBox (errors st) |}.

(** ** More notions used to state the properties *)

Fixpoint contains_char (c : ascii) (s : string) : bool :=
  match s with
  | "" => false
  | String x s' => Ascii.eqb x c || contains_char c s'
  end.

Fixpoint count_char (c : ascii) (s : string) : nat :=
  match s with
  | "" => O
  | String x s' => if Ascii.eqb x c then S (count_char c s') else count_char c s'
  end.

Definition matches (line : string) : bool :=
  match regex_match line with
  | Some _ => true
  | None => false
  end.

(** The message a key ends up with: the last line filed under it. *)
Definition final_entry (lines : list string) (k : string) : string * string :=
  (k, match last_with_key k lines with
      | Some l => l
      | None => ""
      end).

(** A numeral without superfluous leading zeros. *)
Definition canonical (d : string) : bool :=
  match d with
  | "" => false
  | String c rest =>
      all_digits d && (negb (Ascii.eqb c "0") || String.eqb rest "")
  end.

(** ** Worked examples *)

Example round_2_53_plus_1 : round_double (2 ^ 53 + 1) = Finite (2 ^ 53).
Proof. vm_compute. reflexivity. Qed.

Example round_2_53_plus_3 : round_double (2 ^ 53 + 3) = Finite (2 ^ 53 + 4).
Proof. vm_compute. reflexivity. Qed.

Example ToString_1e21 : ToString (Finite (10 ^ 21)) = "1e+21".
Proof. vm_compute. reflexivity. Qed.

Example ToString_2_60 : ToString (Finite (2 ^ 60)) = "1152921504606847000".
Proof. vm_compute. reflexivity. Qed.

Example ToString_1e23 :
  ToString (round_double (10 ^ 23)) = "1e+23".
Proof. vm_compute. reflexivity. Qed.

Example ToString_big :
  ToString (round_double 123456789012345678901234567890) = "1.2345678901234568e+29".
Proof. vm_compute. reflexivity. Qed.

Example ToString_minus_1 : ToString (Finite (-1)) = "-1".
Proof. vm_compute. reflexivity. Qed.

Example parseInt_1e21 : parseInt "1e+21" = Finite 1.
Proof. vm_compute. reflexivity. Qed.

Example parseInt_Infinity : parseInt "Infinity" = NaN.
Proof. vm_compute. reflexivity. Qed.

Example traceback_diagnostics :
  extractDiagnostics (Some traceback) = [("2", traceback_head)].
Proof. vm_compute. reflexivity. Qed.

Example line_1_is_index_0 :
  extractDiagnostics (Some "error on line 1") = [("0", "error on line 1")].
Proof. vm_compute. reflexivity. Qed.

Example line_0_is_index_minus_1 :
  extractDiagnostics (Some "error on line 0") = [("-1", "error on line 0")].
Proof. vm_compute. reflexivity. Qed.

Example keys_ascending :
  keys (extractDiagnostics (Some ("line 5" ++ nl ++ "line 3"))) = ["2"; "4"].
Proof. vm_compute. reflexivity. Qed.

Example big_line :
  map (fun d => startLineNumber (range d))
    (decorations (extractDiagnostics (Some "line 1000000000000000000000")))
  = [Finite 2].
Proof. vm_compute. reflexivity. Qed.

Example big_line_key :
  extractDiagnostics (Some "line 1000000000000000000000") =
  [("1e+21", "line 1000000000000000000000")].
Proof. vm_compute. reflexivity. Qed.

Example mixed_indices_keys :
  own_names (extractDiagnostics (Some mixed_indices))
  = ["4294967295"; "-1"; "6"; "1"]
  /\ keys (extractDiagnostics (Some mixed_indices))
     = ["1"; "6"; "4294967295"; "-1"].
Proof. vm_compute. split; reflexivity. Qed.

Example line_above_2_53 :
  lineNumber "9007199254740994" = Finite (2 ^ 53)
  /\ displayLine (ToString (Finite (2 ^ 53))) = Finite (2 ^ 53).
Proof. vm_compute. split; reflexivity. Qed.

Example overflowing_line :
  lineNumber (decimal (10 ^ 400)) = Inf false
  /\ displayLine (ToString (Inf false)) = NaN.
Proof. vm_compute. split; reflexivity. Qed.

Example failed_run :
  runCode failingService mounted
  = Resolved (consoleError mounted "Network Error").
Proof. reflexivity. Qed.

Example unmounted_run : runCode failingService initialState = Rejected "TypeError".
Proof. reflexivity. Qed.

(** ** Strings and decimal numerals *)

Lemma append_assoc (a b c : string) : (a ++ b) ++ c = a ++ (b ++ c).
Proof. induction a as [|x a IH]; simpl; [reflexivity | now rewrite IH]. Qed.

Lemma append_nil_r (a : string) : a ++ "" = a.
Proof. induction a as [|x a IH]; simpl; [reflexivity | now rewrite IH]. Qed.

Lemma append_length (a b : string) :
  String.length (a ++ b) = (String.length a + String.length b)%nat.
Proof. induction a as [|x a IH]; simpl; [reflexivity | now rewrite IH]. Qed.

Lemma is_digit_spec (c : ascii) :
  is_digit c = true <-> 0 <= digit_value c <= 9.
Proof.
  unfold is_digit, digit_value.
  rewrite andb_true_iff, !Nat.leb_le. lia.
Qed.

Lemma digit_small (d : Z) :
  0 <= d < 10 ->
  d = 0 \/ d = 1 \/ d = 2 \/ d = 3 \/ d = 4 \/ d = 5 \/ d = 6 \/ d = 7
  \/ d = 8 \/ d = 9.
Proof. lia. Qed.

Lemma digit_value_char (d : Z) : 0 <= d < 10 -> digit_value (digit_char d) = d.
Proof.
  intros H. destruct (digit_small d H) as [E|[E|[E|[E|[E|[E|[E|[E|[E|E]]]]]]]]];
    subst d; reflexivity.
Qed.

Lemma is_digit_char (d : Z) : 0 <= d < 10 -> is_digit (digit_char d) = true.
Proof.
  intros H. destruct (digit_small d H) as [E|[E|[E|[E|[E|[E|[E|[E|[E|E]]]]]]]]];
    subst d; reflexivity.
Qed.

Lemma digits_value_app (s t : string) (a : Z) :
  digits_value (s ++ t) a = digits_value t (digits_value s a).
Proof. revert a. induction s as [|c s IH]; intros a; simpl; auto. Qed.

Lemma all_digits_app (s t : string) :
  all_digits (s ++ t) = all_digits s && all_digits t.
Proof.
  induction s as [|c s IH]; simpl; [reflexivity|].
  now rewrite IH, andb_assoc.
Qed.

Lemma take_digits_all (s : string) : all_digits s = true -> take_digits s = s.
Proof.
  induction s as [|c s IH]; simpl; [reflexivity|].
  intros H. apply andb_true_iff in H as [Hc Hs]. now rewrite Hc, IH.
Qed.

Lemma take_digits_app (d post : string) :
  all_digits d = true -> starts_with_digit post = false ->
  take_digits (d ++ post) = d.
Proof.
  induction d as [|c d IH]; simpl; intros Hd Hp.
  - destruct post as [|x post]; simpl in *; [reflexivity | now rewrite Hp].
  - apply andb_true_iff in Hd as [Hc Hd]. now rewrite Hc, IH.
Qed.

Lemma take_drop_digits (s : string) : s = take_digits s ++ drop_digits s.
Proof.
  induction s as [|c s IH]; simpl; [reflexivity|].
  destruct (is_digit c); simpl; [now rewrite <- IH | reflexivity].
Qed.

Lemma take_digits_digits (s : string) : all_digits (take_digits s) = true.
Proof.
  induction s as [|c s IH]; simpl; [reflexivity|].
  destruct (is_digit c) eqn:E; simpl; [now rewrite E | reflexivity].
Qed.

Lemma drop_digits_start (s : string) :
  starts_with_digit (drop_digits s) = false.
Proof.
  induction s as [|c s IH]; simpl; [reflexivity|].
  destruct (is_digit c) eqn:E; simpl; [assumption | now rewrite E].
Qed.

Lemma decimal_fuel_acc (f : nat) (n : Z) (acc : string) :
  decimal_fuel f n acc = decimal_fuel f n "" ++ acc.
Proof.
  revert n acc. induction f as [|f IH]; intros n acc; simpl; [reflexivity|].
  destruct (n <? 10); [reflexivity|].
  rewrite IH. rewrite (IH _ (String _ "")). now rewrite append_assoc.
Qed.

Lemma decimal_fuel_value (f : nat) (n : Z) :
  0 <= n < 2 ^ Z.of_nat f ->
  digits_value (decimal_fuel f n "") 0 = n.
Proof.
  revert n. induction f as [|f IH]; intros n Hn.
  - simpl in *. lia.
  - simpl decimal_fuel. destruct (Z.ltb_spec n 10) as [Hlt|Hge].
    + simpl. rewrite Z.mod_small by lia. rewrite digit_value_char; lia.
    + rewrite decimal_fuel_acc, digits_value_app. simpl.
      rewrite IH.
      * rewrite digit_value_char by (apply Z.mod_pos_bound; lia).
        pose proof (Z.div_mod n 10). lia.
      * split; [apply Z.div_pos; lia|].
        apply Z.div_lt_upper_bound; [lia|].
        rewrite Nat2Z.inj_succ, Z.pow_succ_r in Hn by lia. lia.
Qed.

Lemma decimal_fuel_digits (f : nat) (n : Z) :
  0 <= n -> all_digits (decimal_fuel f n "") = true.
Proof.
  revert n. induction f as [|f IH]; intros n Hn; simpl; [reflexivity|].
  assert (Hd : is_digit (digit_char (n mod 10)) = true)
    by (apply is_digit_char, Z.mod_pos_bound; lia).
  destruct (n <? 10); simpl.
  - now rewrite Hd.
  - rewrite decimal_fuel_acc, all_digits_app. simpl.
    rewrite Hd, IH; [reflexivity | apply Z.div_pos; lia].
Qed.

Lemma fuel_enough (n : Z) : 0 <= n -> n < 2 ^ Z.of_nat (S (Z.to_nat (Z.log2 n))).
Proof.
  intros Hn. rewrite Nat2Z.inj_succ, Z2Nat.id by apply Z.log2_nonneg.
  destruct (Z.eq_dec n 0) as [->|Hz]; [reflexivity|].
  apply Z.log2_spec. lia.
Qed.

Lemma decimal_value (n : Z) : 0 <= n -> digits_value (decimal n) 0 = n.
Proof.
  intros Hn. apply decimal_fuel_value. split; [assumption | now apply fuel_enough].
Qed.

Lemma decimal_digits (n : Z) : 0 <= n -> all_digits (decimal n) = true.
Proof. intros Hn. now apply decimal_fuel_digits. Qed.

Lemma decimal_nonempty (n : Z) : decimal n <> "".
Proof.
  unfold decimal. simpl. destruct (n <? 10); [discriminate|].
  rewrite decimal_fuel_acc. destruct (decimal_fuel _ _ ""); discriminate.
Qed.

(** ** Numbers: rounding, parsing and printing *)

Lemma digits_value_ge (s : string) (a : Z) :
  all_digits s = true -> 0 <= a -> a <= digits_value s a.
Proof.
  revert a. induction s as [|c s IH]; intros a Hs Ha; simpl in *; [lia|].
  apply andb_true_iff in Hs as [Hc Hs]. apply is_digit_spec in Hc.
  specialize (IH (a * 10 + digit_value c) Hs). lia.
Qed.

Lemma round_nonneg_small (n : Z) : n < 2 ^ 53 -> round_nonneg n = Finite n.
Proof.
  intros H. unfold round_nonneg.
  destruct (Z.ltb_spec n (2 ^ 53)); [reflexivity | lia].
Qed.

(** Above 2^53 the result is [q' * 2^e] for a 53-bit significand [q']. *)
Lemma round_nonneg_big (n : Z) :
  2 ^ 53 <= n ->
  round_nonneg n = Inf false
  \/ exists q' e, round_nonneg n = Finite (q' * 2 ^ e)
                  /\ 1 <= e /\ 2 ^ 52 <= q' <= 2 ^ 53
                  /\ q' * 2 ^ e < 2 ^ 1024
                  /\ n / 2 ^ e <= q' <= n / 2 ^ e + 1
                  /\ e = Z.log2 n - 52.
Proof.
  intros Hn. unfold round_nonneg.
  destruct (Z.ltb_spec n (2 ^ 53)) as [Hlt|_]; [lia|].
  set (e := Z.log2 n - 52).
  assert (He : 1 <= e).
  { assert (53 <= Z.log2 n); [|lia].
    rewrite <- (Z.log2_pow2 53) by lia. apply Z.log2_le_mono. lia. }
  assert (Hpe : 0 < 2 ^ e) by (apply Z.pow_pos_nonneg; lia).
  destruct (Z.log2_spec n) as [Hlo Hhi]; [lia|].
  assert (E1 : 2 ^ Z.log2 n = 2 ^ 52 * 2 ^ e).
  { rewrite <- Z.pow_add_r by lia. f_equal. lia. }
  assert (E2 : 2 ^ Z.succ (Z.log2 n) = 2 ^ 53 * 2 ^ e).
  { rewrite <- Z.pow_add_r by lia. f_equal. lia. }
  assert (Hq : 2 ^ 52 <= n / 2 ^ e < 2 ^ 53).
  { split.
    - apply Z.div_le_lower_bound; lia.
    - apply Z.div_lt_upper_bound; lia. }
  set (q := n / 2 ^ e) in *.
  set (q' := if n mod 2 ^ e <? 2 ^ (e - 1) then q
             else if 2 ^ (e - 1) <? n mod 2 ^ e then q + 1
             else if Z.even q then q else q + 1).
  assert (Hq' : q <= q' <= q + 1).
  { unfold q'. destruct (_ <? _); [lia|]. destruct (_ <? _); [lia|].
    destruct (Z.even q); lia. }
  destruct (Z.leb_spec (2 ^ 1024) (q' * 2 ^ e)) as [Hov|Hfin].
  - now left.
  - right. exists q', e. repeat split; try lia.
Qed.

Lemma round_nonneg_big_ge (n v : Z) :
  2 ^ 53 <= n -> round_nonneg n = Finite v -> 2 ^ 53 <= v.
Proof.
  intros Hn Hv. destruct (round_nonneg_big n Hn) as [E|(q' & e & E & He & Hq & _)].
  - congruence.
  - rewrite E in Hv. injection Hv as <-.
    assert (2 ^ 1 <= 2 ^ e) by (apply Z.pow_le_mono_r; lia).
    change (2 ^ 1) with 2 in *. nia.
Qed.

(** Rounding a nonnegative integer gives Infinity or a nonnegative
    integer, which is zero only for zero. *)
Lemma round_nonneg_cases (n : Z) :
  0 <= n ->
  round_nonneg n = Inf false
  \/ exists v, round_nonneg n = Finite v /\ 0 <= v /\ (v = 0 <-> n = 0).
Proof.
  intros Hn. destruct (Z.lt_ge_cases n (2 ^ 53)) as [Hs|Hb].
  - right. exists n. rewrite round_nonneg_small by assumption.
    repeat split; auto.
  - destruct (round_nonneg n) as [| [|] | v] eqn:E.
    + destruct (round_nonneg_big n Hb) as [E'|(? & ? & E' & _)]; congruence.
    + destruct (round_nonneg_big n Hb) as [E'|(? & ? & E' & _)]; congruence.
    + now left.
    + right. exists v. pose proof (round_nonneg_big_ge n v Hb E).
      repeat split; lia.
Qed.

Lemma is_digit_not_space (c : ascii) : is_digit c = true -> is_space c = false.
Proof.
  unfold is_digit, is_space. intros H.
  apply andb_true_iff in H as [H1 H2]. apply Nat.leb_le in H1, H2.
  apply orb_false_iff; split; [apply orb_false_iff; split|].
  - apply andb_false_iff. right. apply Nat.leb_gt. lia.
  - apply Nat.eqb_neq. lia.
  - apply Nat.eqb_neq. lia.
Qed.

(** [parseInt] of a nonempty run of digits is its value, rounded. *)
Lemma parseInt_digits (d : string) :
  d <> "" -> all_digits d = true ->
  parseInt d = round_nonneg (digits_value d 0).
Proof.
  intros Hne Hd. destruct d as [|c d]; [congruence|].
  pose proof Hd as Hd'. simpl in Hd'. apply andb_true_iff in Hd' as [Hc _].
  unfold parseInt. simpl skip_spaces. rewrite (is_digit_not_space c Hc).
  assert (Hpu : parse_unsigned (String c d) = round_nonneg (digits_value (String c d) 0)).
  { unfold parse_unsigned. rewrite (take_digits_all _ Hd).
    unfold round_double.
    pose proof (digits_value_ge (String c d) 0 Hd ltac:(lia)).
    destruct (Z.ltb_spec (digits_value (String c d) 0) 0); [lia | reflexivity]. }
  destruct c as [b0 b1 b2 b3 b4 b5 b6 b7].
  destruct b0, b1, b2, b3, b4, b5, b6, b7; try exact Hpu; discriminate Hc.
Qed.

(** The line index of a digit run: -1 for a run of zeros, otherwise a
    nonnegative integer or Infinity. *)
Lemma lineNumber_cases (d : string) :
  d <> "" -> all_digits d = true ->
  lineNumber d = Inf false
  \/ exists z, lineNumber d = Finite z /\ -1 <= z
               /\ (z = -1 <-> digits_value d 0 = 0).
Proof.
  intros Hne Hd. unfold lineNumber. rewrite (parseInt_digits d Hne Hd).
  pose proof (digits_value_ge d 0 Hd ltac:(lia)) as Hv.
  destruct (round_nonneg_cases _ Hv) as [E|(v & E & Hv0 & Hv1)]; rewrite E.
  - now left.
  - unfold sub_int, add_int, round_double.
    destruct (Z.ltb_spec (v + - (1)) 0) as [Hneg|Hpos].
    + assert (v = 0) by lia. subst v. right. exists (-1).
      rewrite round_nonneg_small by lia. simpl. repeat split; lia.
    + destruct (round_nonneg_cases (v + - (1)) Hpos) as [E'|(w & E' & Hw0 & Hw1)];
        rewrite E'.
      * now left.
      * right. exists w. repeat split; lia.
Qed.

(** Below 2^53 the subtraction is exact. *)
Lemma lineNumber_exact (d : string) :
  d <> "" -> all_digits d = true -> digits_value d 0 <= 2 ^ 53 ->
  lineNumber d = Finite (digits_value d 0 - 1).
Proof.
  intros Hne Hd Hv. unfold lineNumber. rewrite (parseInt_digits d Hne Hd).
  pose proof (digits_value_ge d 0 Hd ltac:(lia)) as Hv0.
  set (v := digits_value d 0) in *.
  assert (E : round_nonneg v = Finite v).
  { destruct (Z.eq_dec v (2 ^ 53)) as [->|Hn];
      [vm_compute; reflexivity | apply round_nonneg_small; lia]. }
  rewrite E. unfold sub_int, add_int, round_double.
  replace (v + - (1)) with (v - 1) by lia.
  destruct (Z.ltb_spec (v - 1) 0).
  - assert (v = 0) by lia. subst v. replace (digits_value d 0) with 0 by lia.
    reflexivity.
  - now rewrite round_nonneg_small by lia.
Qed.

(** A 53-bit significand times a power of two is representable. *)
Lemma round_nonneg_representable (q e : Z) :
  2 ^ 52 <= q < 2 ^ 53 -> 1 <= e -> q * 2 ^ e < 2 ^ 1024 ->
  round_nonneg (q * 2 ^ e) = Finite (q * 2 ^ e).
Proof.
  intros Hq He Hfin.
  assert (Hpe : 0 < 2 ^ e) by (apply Z.pow_pos_nonneg; lia).
  assert (H2e : 2 ^ 1 <= 2 ^ e) by (apply Z.pow_le_mono_r; lia).
  change (2 ^ 1) with 2 in H2e.
  assert (Hlog : Z.log2 (q * 2 ^ e) = 52 + e).
  { apply Z.log2_unique; [lia|].
    replace (Z.succ (52 + e)) with (53 + e) by lia.
    rewrite !Z.pow_add_r by lia. nia. }
  unfold round_nonneg.
  destruct (Z.ltb_spec (q * 2 ^ e) (2 ^ 53)) as [Hlt|_]; [nia|].
  rewrite Hlog. replace (52 + e - 52) with e by lia.
  rewrite Z.mod_mul, Z.div_mul by lia.
  assert (Hh : 0 < 2 ^ (e - 1)) by (apply Z.pow_pos_nonneg; lia).
  destruct (Z.ltb_spec 0 (2 ^ (e - 1))) as [_|Hc]; [|lia].
  destruct (Z.leb_spec (2 ^ 1024) (q * 2 ^ e)); [lia | reflexivity].
Qed.

(** Rounding is idempotent: a rounded value is a double. *)
Lemma round_nonneg_idempotent (n w : Z) :
  0 <= n -> round_nonneg n = Finite w -> round_nonneg w = Finite w.
Proof.
  intros Hn Hw. destruct (Z.lt_ge_cases n (2 ^ 53)) as [Hs|Hb].
  - rewrite round_nonneg_small in Hw by assumption. injection Hw as <-.
    now apply round_nonneg_small.
  - destruct (round_nonneg_big n Hb)
      as [E|(q' & e & E & He & Hq & Hfin & _)]; [congruence|].
    rewrite E in Hw. injection Hw as <-.
    destruct (Z.eq_dec q' (2 ^ 53)) as [->|Hne].
    + replace (2 ^ 53 * 2 ^ e) with (2 ^ 52 * 2 ^ (e + 1)).
      * apply round_nonneg_representable; try lia.
        replace (2 ^ 52 * 2 ^ (e + 1)) with (2 ^ 53 * 2 ^ e); [assumption|].
        rewrite Z.pow_add_r by lia. lia.
      * rewrite Z.pow_add_r by lia. lia.
    + apply round_nonneg_representable; lia.
Qed.

(** Nothing at or above 10^21 rounds to a value below it. *)
Lemma round_nonneg_1e21 (v w : Z) :
  10 ^ 21 <= v -> round_nonneg v = Finite w -> 10 ^ 21 <= w.
Proof.
  intros Hv Hw.
  assert (Hb : 2 ^ 53 <= v) by lia.
  destruct (round_nonneg_big v Hb)
    as [E|(q' & e & E & He & Hq & Hfin & Hqq & Hedef)]; [congruence|].
  rewrite E in Hw. injection Hw as <-.
  assert (H69 : 69 <= Z.log2 v).
  { rewrite <- (Z.log2_pow2 69) by lia. apply Z.log2_le_mono. lia. }
  destruct (Z.eq_dec e 17) as [->|Hne].
  - assert (7629394531250000 <= v / 2 ^ 17).
    { apply Z.div_le_lower_bound; lia. }
    change (2 ^ 17) with 131072 in *. lia.
  - assert (2 ^ 18 <= 2 ^ e) by (apply Z.pow_le_mono_r; lia).
    change (2 ^ 18) with 262144 in *. nia.
Qed.

Lemma shortest_at_reads_back (z : Z) (E : nat) (v : Z) :
  shortest_at z E = Some v -> reads_back z v = true.
Proof.
  unfold shortest_at.
  destruct (reads_back z (z / 10 ^ Z.of_nat E * 10 ^ Z.of_nat E)) eqn:Hlo;
    destruct (reads_back z (z / 10 ^ Z.of_nat E * 10 ^ Z.of_nat E
                            + 10 ^ Z.of_nat E)) eqn:Hhi;
    repeat match goal with |- context [if ?b then _ else _] => destruct b end;
    intros H; inversion H; subst; assumption.
Qed.

(** The numeral chosen for a double reads back as that double. *)
Lemma shortest_from_reads_back (z : Z) (E : nat) :
  0 < z -> round_nonneg z = Finite z ->
  reads_back z (shortest_from E z) = true.
Proof.
  intros Hz Hr. induction E as [|E IH]; simpl.
  - destruct (shortest_at z 0) eqn:Hs; [now apply shortest_at_reads_back in Hs|].
    unfold reads_back. rewrite Hr. simpl. rewrite Z.eqb_refl.
    destruct (Z.ltb_spec 0 z); [reflexivity | lia].
  - destruct (shortest_at z (S E)) eqn:Hs;
      [now apply shortest_at_reads_back in Hs | exact IH].
Qed.

Lemma reads_back_spec (z v : Z) :
  reads_back z v = true <-> 0 < v /\ round_nonneg v = Finite z.
Proof.
  unfold reads_back. rewrite andb_true_iff, Z.ltb_lt.
  destruct (round_nonneg v) as [| s | w]; simpl; try (intuition congruence).
  rewrite Z.eqb_eq. intuition congruence.
Qed.

(** Below 2^53 the numeral is the integer itself. *)
Lemma shortest_safe (z : Z) : 0 < z < 2 ^ 53 -> shortest z = z.
Proof.
  intros Hz.
  assert (Hr : round_nonneg z = Finite z) by (apply round_nonneg_small; lia).
  pose proof (shortest_from_reads_back z (Z.to_nat (Z.log2 z)) ltac:(lia) Hr) as H.
  apply reads_back_spec in H as [Hv Hrv]. fold (shortest z) in *.
  destruct (Z.lt_ge_cases (shortest z) (2 ^ 53)) as [Hs|Hb].
  - rewrite round_nonneg_small in Hrv by assumption. congruence.
  - pose proof (round_nonneg_big_ge _ _ Hb Hrv). lia.
Qed.

Lemma ToString_safe (z : Z) :
  0 <= z < 2 ^ 53 -> ToString (Finite z) = decimal z.
Proof.
  intros Hz. unfold ToString.
  destruct (Z.eqb_spec z 0) as [->|Hnz]; [reflexivity|].
  destruct (Z.ltb_spec z 0); [lia|].
  unfold positive_to_string. rewrite shortest_safe by lia.
  destruct (Z.ltb_spec z (10 ^ 21)); [reflexivity | lia].
Qed.

(** Reading a key back: for a double below 10^21 the key is a plain
    decimal numeral and [parseInt] recovers the double. *)
Lemma parseInt_ToString (z : Z) :
  0 <= z < 10 ^ 21 -> round_nonneg z = Finite z ->
  parseInt (ToString (Finite z)) = Finite z.
Proof.
  intros Hz Hr. unfold ToString.
  destruct (Z.eqb_spec z 0) as [->|Hnz]; [reflexivity|].
  destruct (Z.ltb_spec z 0); [lia|].
  unfold positive_to_string.
  pose proof (shortest_from_reads_back z (Z.to_nat (Z.log2 z)) ltac:(lia) Hr)
    as Hrb.
  apply reads_back_spec in Hrb as [Hv Hrv]. fold (shortest z) in *.
  destruct (Z.ltb_spec (shortest z) (10 ^ 21)) as [Hs|Hb].
  - rewrite parseInt_digits.
    + rewrite decimal_value by lia. exact Hrv.
    + apply decimal_nonempty.
    + apply decimal_digits. lia.
  - pose proof (round_nonneg_1e21 _ _ Hb Hrv). lia.
Qed.

Lemma parseInt_minus_1 : parseInt (ToString (Finite (-1))) = Finite (-1).
Proof. vm_compute. reflexivity. Qed.

Lemma lineNumber_double (d : string) (z : Z) :
  d <> "" -> all_digits d = true -> lineNumber d = Finite z -> 0 <= z ->
  round_nonneg z = Finite z.
Proof.
  intros Hne Hd Hl Hz. unfold lineNumber in Hl.
  rewrite (parseInt_digits d Hne Hd) in Hl.
  pose proof (digits_value_ge d 0 Hd ltac:(lia)) as Hv.
  destruct (round_nonneg (digits_value d 0)) as [| s | v] eqn:E;
    simpl in Hl; try discriminate.
  unfold round_double in Hl.
  destruct (Z.ltb_spec (v + -1) 0) as [Hneg|Hpos].
  - destruct (round_nonneg_cases (- (v + -1)) ltac:(lia))
      as [E2|(w' & E2 & Hw & Hw1)]; rewrite E2 in Hl; simpl in Hl;
      [discriminate|].
    injection Hl as Hl. lia.
  - now apply (round_nonneg_idempotent (v + -1)).
Qed.

(** The line shown for a key below 10^21 is the line index plus one, in
    Number arithmetic. *)
Lemma displayLine_lineNumber (d : string) (z : Z) :
  d <> "" -> all_digits d = true -> lineNumber d = Finite z -> z < 10 ^ 21 ->
  displayLine (ToString (lineNumber d)) = add_int (Finite z) 1.
Proof.
  intros Hne Hd Hl Hz. rewrite Hl. unfold displayLine.
  destruct (lineNumber_cases d Hne Hd) as [E|(z' & E & Hz' & _)]; [congruence|].
  assert (z' = z) by congruence. subst z'.
  destruct (Z.eq_dec z (-1)) as [->|Hn].
  - now rewrite parseInt_minus_1.
  - rewrite parseInt_ToString; [reflexivity | lia |].
    apply (lineNumber_double d); auto. lia.
Qed.

Lemma add_int_exact (z : Z) :
  -1 <= z < 2 ^ 53 -> add_int (Finite z) 1 = Finite (z + 1).
Proof.
  intros Hz. unfold add_int, round_double.
  destruct (Z.ltb_spec (z + 1) 0); [lia|].
  destruct (Z.eq_dec (z + 1) (2 ^ 53)) as [->|Hn];
    [vm_compute; reflexivity | apply round_nonneg_small; lia].
Qed.

(** ** Objects *)

Lemma get_own_set_same (o : obj) (k v : string) : get_own (set o k v) k = Some v.
Proof.
  induction o as [|[k' v'] o IH]; simpl.
  - now rewrite String.eqb_refl.
  - destruct (String.eqb_spec k' k) as [->|Hne]; simpl.
    + now rewrite String.eqb_refl.
    + destruct (String.eqb_spec k' k); [contradiction | exact IH].
Qed.

Lemma get_own_set_other (o : obj) (k v k0 : string) :
  k0 <> k -> get_own (set o k v) k0 = get_own o k0.
Proof.
  intros Hne. induction o as [|[k' v'] o IH]; simpl.
  - destruct (String.eqb_spec k k0); [congruence | reflexivity].
  - destruct (String.eqb_spec k' k) as [->|Hk]; simpl.
    + destruct (String.eqb_spec k k0); [congruence | reflexivity].
    + destruct (String.eqb_spec k' k0); [reflexivity | exact IH].
Qed.

Lemma mem_In (k : string) (l : list string) : mem k l = true <-> In k l.
Proof.
  unfold mem. rewrite existsb_exists. split.
  - intros (x & Hx & E). apply String.eqb_eq in E. now subst.
  - intros H. exists k. split; [assumption | apply String.eqb_refl].
Qed.

Lemma mem_app (k : string) (l1 l2 : list string) :
  mem k (l1 ++ l2) = mem k l1 || mem k l2.
Proof. apply existsb_app. Qed.

(** Writing a property that exists keeps the order of the names; a new
    name goes last. *)
Lemma own_names_set (o : obj) (k v : string) :
  own_names (set o k v)
  = if mem k (own_names o) then own_names o else (own_names o ++ [k])%list.
Proof.
  induction o as [|[k' v'] o IH]; simpl; [reflexivity|].
  rewrite (String.eqb_sym k k').
  destruct (String.eqb_spec k' k) as [->|Hne]; simpl; [reflexivity|].
  unfold own_names in *. rewrite IH.
  fold (mem k (map fst o)). now destruct (mem k (map fst o)).
Qed.

Lemma get_own_In (o : obj) (k : string) :
  In k (own_names o) <-> exists v, get_own o k = Some v.
Proof.
  induction o as [|[k' v'] o IH]; simpl.
  - split; [tauto | intros (v & H); discriminate].
  - destruct (String.eqb_spec k' k) as [->|Hne].
    + split; [eauto | auto].
    + rewrite <- IH. tauto.
Qed.

Lemma NoDup_own_names_set (o : obj) (k v : string) :
  NoDup (own_names o) -> NoDup (own_names (set o k v)).
Proof.
  intros H. rewrite own_names_set.
  destruct (mem k (own_names o)) eqn:E; [assumption|].
  apply NoDup_app; [assumption | constructor; [tauto | constructor] |].
  intros x Hx [<-|[]]. apply mem_In in Hx. congruence.
Qed.

Lemma insert_index_perm (k : string) (l : list string) :
  Permutation (insert_index k l) (k :: l).
Proof.
  induction l as [|h t IH]; simpl; [reflexivity|].
  destruct (index_value k <=? index_value h); [reflexivity|].
  rewrite IH. apply perm_swap.
Qed.

Lemma sort_indices_perm (l : list string) : Permutation (sort_indices l) l.
Proof.
  induction l as [|h t IH]; simpl; [reflexivity|].
  rewrite insert_index_perm. now constructor.
Qed.

Lemma filter_partition_perm {A : Type} (f : A -> bool) (l : list A) :
  Permutation (filter f l ++ filter (fun x => negb (f x)) l) l.
Proof.
  induction l as [|h t IH]; simpl; [reflexivity|].
  destruct (f h); simpl.
  - now constructor.
  - rewrite <- Permutation_middle. now constructor.
Qed.

(** [Object.keys] lists exactly the own names, each once. *)
Lemma keys_perm (o : obj) : Permutation (keys o) (own_names o).
Proof.
  unfold keys. rewrite sort_indices_perm. apply filter_partition_perm.
Qed.

Lemma keys_In (o : obj) (k : string) : In k (keys o) <-> In k (own_names o).
Proof.
  split; apply Permutation_in; [apply keys_perm | symmetry; apply keys_perm].
Qed.

Lemma insert_index_sorted (k : string) (l : list string) :
  StronglySorted le_index l -> StronglySorted le_index (insert_index k l).
Proof.
  induction 1 as [|h t Ht IH Hh]; simpl.
  - repeat constructor.
  - destruct (Z.leb_spec (index_value k) (index_value h)) as [Hle|Hgt].
    + constructor; [now constructor|].
      constructor; [exact Hle|].
      eapply Forall_impl; [|exact Hh]. unfold le_index. intros; lia.
    + constructor; [exact IH|].
      eapply Permutation_Forall; [symmetry; apply insert_index_perm|].
      constructor; [unfold le_index; lia | exact Hh].
Qed.

Lemma sort_indices_sorted (l : list string) :
  StronglySorted le_index (sort_indices l).
Proof.
  induction l as [|h t IH]; simpl; [constructor | now apply insert_index_sorted].
Qed.

(** ** Canonical numerals *)

Lemma digits_value_shift (s : string) (a : Z) :
  digits_value s a = a * 10 ^ Z.of_nat (String.length s) + digits_value s 0.
Proof.
  revert a. induction s as [|c s IH]; intros a.
  - simpl. lia.
  - cbn [digits_value String.length]. rewrite (IH (a * 10 + digit_value c)).
    rewrite (IH (0 * 10 + digit_value c)).
    rewrite Nat2Z.inj_succ, Z.pow_succ_r by lia. ring.
Qed.

Lemma digits_value_bound (s : string) :
  all_digits s = true ->
  0 <= digits_value s 0 < 10 ^ Z.of_nat (String.length s).
Proof.
  induction s as [|c s IH]; intros Hs.
  - simpl. lia.
  - cbn [all_digits] in Hs. apply andb_true_iff in Hs as [Hc Hs].
    apply is_digit_spec in Hc. specialize (IH Hs).
    cbn [digits_value String.length]. rewrite digits_value_shift.
    rewrite Nat2Z.inj_succ, Z.pow_succ_r by lia. nia.
Qed.

Lemma digit_value_inj (c c' : ascii) : digit_value c = digit_value c' -> c = c'.
Proof.
  unfold digit_value. intros H.
  rewrite <- (ascii_nat_embedding c), <- (ascii_nat_embedding c').
  f_equal. lia.
Qed.

Lemma digits_same_length (s t : string) :
  all_digits s = true -> all_digits t = true ->
  String.length s = String.length t ->
  digits_value s 0 = digits_value t 0 -> s = t.
Proof.
  revert t. induction s as [|c s IH]; intros [|c' t] Hs Ht Hlen Hv;
    try discriminate; [reflexivity|].
  cbn [all_digits] in Hs, Ht.
  apply andb_true_iff in Hs as [Hc Hs]. apply andb_true_iff in Ht as [Hc' Ht].
  injection Hlen as Hlen.
  cbn [digits_value] in Hv.
  rewrite (digits_value_shift s), (digits_value_shift t), Hlen in Hv.
  pose proof (digits_value_bound s Hs) as Bs.
  pose proof (digits_value_bound t Ht) as Bt.
  rewrite Hlen in Bs.
  apply is_digit_spec in Hc, Hc'.
  set (P := 10 ^ Z.of_nat (String.length t)) in *.
  assert (digit_value c = digit_value c') by nia.
  f_equal; [now apply digit_value_inj|].
  apply IH; auto. nia.
Qed.

(** A canonical numeral of [n] digits denotes a number of [n] digits. *)
Lemma array_index_bounds (k : string) :
  is_array_index k = true ->
  all_digits k = true
  /\ (k = "0" \/ 10 ^ (Z.of_nat (String.length k) - 1) <= index_value k).
Proof.
  unfold is_array_index, index_value. destruct k as [|c r]; [discriminate|].
  intros H. apply andb_true_iff in H as [H _].
  apply andb_true_iff in H as [Hd Hz]. split; [exact Hd|].
  apply orb_true_iff in Hz as [Hz|Hz].
  - right. cbn [all_digits] in Hd. apply andb_true_iff in Hd as [Hc Hr].
    cbn [digits_value String.length]. rewrite digits_value_shift.
    pose proof (digits_value_bound r Hr).
    replace (Z.of_nat (S (String.length r)) - 1)
      with (Z.of_nat (String.length r)) by lia.
    assert (1 <= digit_value c).
    { apply is_digit_spec in Hc.
      destruct (Z.eq_dec (digit_value c) 0) as [E|]; [|lia].
      change 0 with (digit_value "0") in E. apply digit_value_inj in E.
      subst c. discriminate Hz. }
    nia.
  - apply String.eqb_eq in Hz. subst r.
    destruct (Z.eq_dec (digit_value c) 0) as [E|Hn].
    + left. change 0 with (digit_value "0") in E.
      apply digit_value_inj in E. now subst c.
    + right. simpl. cbn [all_digits] in Hd.
      apply andb_true_iff in Hd as [Hc _]. apply is_digit_spec in Hc. lia.
Qed.

(** Two array indices with the same value are the same key. *)
Lemma index_value_inj (k1 k2 : string) :
  is_array_index k1 = true -> is_array_index k2 = true ->
  index_value k1 = index_value k2 -> k1 = k2.
Proof.
  intros H1 H2 Hv.
  destruct (array_index_bounds k1 H1) as [D1 B1].
  destruct (array_index_bounds k2 H2) as [D2 B2].
  pose proof (digits_value_bound k1 D1) as U1.
  pose proof (digits_value_bound k2 D2) as U2.
  fold (index_value k1) in U1. fold (index_value k2) in U2.
  assert (N1 : (1 <= String.length k1)%nat)
    by (destruct k1; [discriminate | simpl; lia]).
  assert (N2 : (1 <= String.length k2)%nat)
    by (destruct k2; [discriminate | simpl; lia]).
  assert (Hlen : String.length k1 = String.length k2).
  { destruct (Nat.lt_trichotomy (String.length k1) (String.length k2))
      as [Hlt|[Heq|Hgt]]; [exfalso | exact Heq | exfalso].
    - destruct B2 as [->|B2]; [simpl in Hlt; lia|].
      assert (10 ^ Z.of_nat (String.length k1)
              <= 10 ^ (Z.of_nat (String.length k2) - 1))
        by (apply Z.pow_le_mono_r; lia).
      lia.
    - destruct B1 as [->|B1]; [simpl in Hgt; lia|].
      assert (10 ^ Z.of_nat (String.length k2)
              <= 10 ^ (Z.of_nat (String.length k1) - 1))
        by (apply Z.pow_le_mono_r; lia).
      lia. }
  now apply digits_same_length.
Qed.

Lemma sorted_strict (l : list string) :
  StronglySorted le_index l -> NoDup l ->
  Forall (fun k => is_array_index k = true) l -> ascending l.
Proof.
  unfold ascending.
  induction 1 as [|h t Ht IH Hh]; intros Hnd Hidx; constructor.
  - apply IH; [now inversion Hnd | now inversion Hidx].
  - inversion Hnd as [|? ? Hnotin _]; inversion Hidx as [|? ? Hh_idx Ht_idx]; subst.
    rewrite Forall_forall in *. intros x Hx.
    specialize (Hh x Hx). unfold le_index in Hh.
    destruct (Z.eq_dec (index_value h) (index_value x)) as [E|Hne]; [|lia].
    apply index_value_inj in E; auto. subst x. contradiction.
Qed.

Lemma sort_indices_ascending (l : list string) :
  NoDup l -> ascending (sort_indices (filter is_array_index l)).
Proof.
  intros Hnd. apply sorted_strict.
  - apply sort_indices_sorted.
  - eapply Permutation_NoDup; [symmetry; apply sort_indices_perm|].
    now apply NoDup_filter.
  - eapply Permutation_Forall; [symmetry; apply sort_indices_perm|].
    apply Forall_forall. intros x Hx. now apply filter_In in Hx.
Qed.

(** ** The error map as a fold over the lines *)

Lemma errorMap_snoc (ls : list string) (l : string) (m : obj) :
  fold_left record_line (ls ++ [l]) m = record_line (fold_left record_line ls m) l.
Proof. now rewrite fold_left_app. Qed.

Lemma record_line_key (m : obj) (l : string) :
  record_line m l = match key_of l with
                    | Some k => set m k l
                    | None => m
                    end.
Proof. unfold record_line, key_of. now destruct (regex_match l). Qed.

Lemma get_own_record_line (m : obj) (l k : string) :
  get_own (record_line m l) k = if has_key k l then Some l else get_own m k.
Proof.
  rewrite record_line_key. unfold has_key.
  destruct (key_of l) as [k'|]; [|reflexivity].
  destruct (String.eqb_spec k' k) as [->|Hne].
  - apply get_own_set_same.
  - apply get_own_set_other. congruence.
Qed.

(** Reading the finished map gives the last line filed under the key. *)
Lemma get_own_fold (ls : list string) (m : obj) (k : string) :
  get_own (fold_left record_line ls m) k
  = match last_with_key k ls with
    | Some l => Some l
    | None => get_own m k
    end.
Proof.
  unfold last_with_key. induction ls as [|l ls IH] using rev_ind.
  - reflexivity.
  - rewrite errorMap_snoc, get_own_record_line, rev_app_distr. simpl.
    destruct (has_key k l); [reflexivity | exact IH].
Qed.

Lemma filter_filter {A : Type} (f g : A -> bool) (l : list A) :
  filter f (filter g l) = filter (fun x => g x && f x) l.
Proof.
  induction l as [|h t IH]; simpl; [reflexivity|].
  destruct (g h); simpl; [destruct (f h)|]; now rewrite IH.
Qed.

Lemma own_names_record_line (m : obj) (l : string) :
  own_names (record_line m l)
  = match key_of l with
    | Some k => if mem k (own_names m) then own_names m
                else (own_names m ++ [k])%list
    | None => own_names m
    end.
Proof.
  rewrite record_line_key. destruct (key_of l); [apply own_names_set | reflexivity].
Qed.

(** The names of the finished map: those it started with, then the new
    keys in the order of their first occurrence in the stream. *)
Lemma own_names_fold (ls : list string) (m : obj) :
  own_names (fold_left record_line ls m)
  = (own_names m
     ++ filter (fun k => negb (mem k (own_names m)))
          (first_occurrences (matched_keys ls)))%list.
Proof.
  revert m. induction ls as [|l ls IH]; intros m.
  - simpl. now rewrite app_nil_r.
  - cbn [fold_left]. rewrite IH, own_names_record_line.
    unfold matched_keys. cbn [flat_map]. fold (matched_keys ls).
    destruct (key_of l) as [k|]; [|reflexivity].
    cbn [app first_occurrences filter].
    destruct (mem k (own_names m)) eqn:Hk; cbn [negb].
    + f_equal. rewrite filter_filter. apply filter_ext_in. intros x _.
      destruct (String.eqb_spec x k) as [->|Hne]; simpl; [now rewrite Hk|reflexivity].
    + rewrite <- app_assoc. cbn [app]. do 2 f_equal.
      rewrite filter_filter. apply filter_ext_in. intros x _.
      rewrite mem_app. unfold mem at 2. simpl. rewrite orb_false_r, negb_orb.
      apply andb_comm.
Qed.

Lemma own_names_errorMap (ls : list string) :
  own_names (errorMap ls) = insertion_order ls.
Proof.
  unfold errorMap, insertion_order. rewrite own_names_fold. simpl.
  induction (first_occurrences (matched_keys ls)) as [|h t IH]; simpl; congruence.
Qed.

Lemma NoDup_fold (ls : list string) (m : obj) :
  NoDup (own_names m) -> NoDup (own_names (fold_left record_line ls m)).
Proof.
  revert m. induction ls as [|l ls IH]; intros m Hm; simpl; [assumption|].
  apply IH. rewrite record_line_key.
  destruct (key_of l); [now apply NoDup_own_names_set | assumption].
Qed.

Lemma NoDup_errorMap (ls : list string) : NoDup (own_names (errorMap ls)).
Proof. apply NoDup_fold. constructor. Qed.

Lemma last_with_key_spec (k : string) (ls : list string) (l : string) :
  last_with_key k ls = Some l -> In l ls /\ key_of l = Some k.
Proof.
  unfold last_with_key. intros H. apply find_some in H as [Hin Hk].
  split; [now apply in_rev|].
  unfold has_key in Hk. destruct (key_of l) as [k'|]; [|discriminate].
  apply String.eqb_eq in Hk. now subst.
Qed.

Lemma find_skip {A : Type} (f : A -> bool) (xs : list A) (l : A) (ys : list A) :
  (forall x, In x xs -> f x = false) -> f l = true ->
  find f (xs ++ l :: ys) = Some l.
Proof.
  intros Hxs Hl. induction xs as [|x xs IH]; simpl.
  - now rewrite Hl.
  - rewrite (Hxs x) by now left. apply IH. intros y Hy. apply Hxs. now right.
Qed.

Lemma has_key_true (k l : string) : has_key k l = true <-> key_of l = Some k.
Proof.
  unfold has_key. destruct (key_of l) as [k'|]; [|split; discriminate].
  rewrite String.eqb_eq. split; congruence.
Qed.

Lemma last_with_key_app (k : string) (pre post : list string) (l : string) :
  key_of l = Some k ->
  (forall l', In l' post -> key_of l' <> Some k) ->
  last_with_key k (pre ++ l :: post) = Some l.
Proof.
  intros Hl Hpost. unfold last_with_key.
  rewrite rev_app_distr. simpl. rewrite <- app_assoc. simpl.
  apply find_skip; [|now apply has_key_true].
  intros x Hx. apply in_rev in Hx.
  destruct (has_key k x) eqn:E; [|reflexivity].
  apply has_key_true in E. now apply Hpost in Hx.
Qed.

Lemma last_with_key_some (k : string) (ls : list string) (l : string) :
  In l ls -> key_of l = Some k -> exists l', last_with_key k ls = Some l'.
Proof.
  intros Hin Hk. unfold last_with_key.
  destruct (find (has_key k) (rev ls)) as [l'|] eqn:E; [eauto|].
  exfalso. apply in_rev in Hin. apply (find_none _ _ E) in Hin.
  apply has_key_true in Hk. congruence.
Qed.

(** ** The regular expression *)

Lemma strip_prefix_spec (p s r : string) :
  strip_prefix p s = Some r <-> s = p ++ r.
Proof.
  revert s. induction p as [|a p IH]; intros s; simpl.
  - split; congruence.
  - destruct s as [|b s]; [split; discriminate|].
    destruct (Ascii.eqb_spec a b) as [->|Hne].
    + rewrite IH. split; congruence.
    + split; [discriminate | congruence].
Qed.

Lemma take_digits_nonempty (s : string) :
  take_digits s <> "" <-> starts_with_digit s = true.
Proof.
  destruct s as [|c s]; simpl; [split; congruence|].
  destruct (is_digit c); split; congruence.
Qed.

Lemma match_here_spec (s d : string) :
  match_here s = Some d
  <-> exists rest, s = "line " ++ rest /\ take_digits rest = d /\ d <> "".
Proof.
  unfold match_here. split.
  - destruct (strip_prefix "line " s) as [rest|] eqn:E; [|discriminate].
    apply strip_prefix_spec in E.
    destruct (take_digits rest) as [|c t] eqn:Et; [discriminate|].
    intros H. injection H as <-. exists rest. repeat split; auto. discriminate.
  - intros (rest & Hs & Ht & Hne). apply strip_prefix_spec in Hs. rewrite Hs, Ht.
    destruct d; [contradiction | reflexivity].
Qed.

Lemma begins_pattern_iff (s : string) :
  begins_pattern s <-> exists d, match_here s = Some d.
Proof.
  unfold begins_pattern. split.
  - intros (c & rest & Hs & Hc). exists (take_digits (String c rest)).
    apply match_here_spec. exists (String c rest). repeat split; auto.
    simpl. rewrite Hc. discriminate.
  - intros (d & H). apply match_here_spec in H as (rest & Hs & Ht & Hne).
    subst d. apply take_digits_nonempty in Hne.
    destruct rest as [|c rest]; [discriminate|]. now exists c, rest.
Qed.

Lemma match_here_none (s : string) : match_here s = None <-> ~ begins_pattern s.
Proof.
  rewrite begins_pattern_iff. destruct (match_here s) as [d|].
  - split; [discriminate | intros H; exfalso; eauto].
  - split; [intros _ (d & H); discriminate | reflexivity].
Qed.

Lemma regex_match_eq (l : string) :
  regex_match l = match match_here l with
                  | Some d => Some d
                  | None => match l with
                            | "" => None
                            | String _ l' => regex_match l'
                            end
                  end.
Proof. destruct l; reflexivity. Qed.

(** The search returns what the pattern gives at the first position where
    it applies. *)
Lemma regex_match_at (pre suf d : string) :
  match_here suf = Some d ->
  (forall pre' suf',
     pre ++ suf = pre' ++ suf' ->
     (String.length pre' < String.length pre)%nat -> ~ begins_pattern suf') ->
  regex_match (pre ++ suf) = Some d.
Proof.
  intros Hm. induction pre as [|c pre IH]; intros Hfirst.
  - simpl. rewrite regex_match_eq, Hm. reflexivity.
  - rewrite regex_match_eq.
    assert (Hn : match_here (String c pre ++ suf) = None).
    { apply match_here_none. apply (Hfirst "" _ eq_refl). simpl. lia. }
    rewrite Hn. simpl. apply IH. intros pre' suf' E Hlen.
    apply (Hfirst (String c pre')); simpl; [now rewrite E | lia].
Qed.

Lemma regex_match_sound (l d : string) :
  regex_match l = Some d ->
  exists pre suf,
    l = pre ++ suf /\ match_here suf = Some d
    /\ forall pre' suf',
         l = pre' ++ suf' ->
         (String.length pre' < String.length pre)%nat -> ~ begins_pattern suf'.
Proof.
  induction l as [|c l IH]; rewrite regex_match_eq.
  - destruct (match_here "") eqn:E; [discriminate E | discriminate].
  - destruct (match_here (String c l)) as [d'|] eqn:E.
    + intros H. injection H as <-. exists "", (String c l).
      repeat split; auto. simpl. intros; lia.
    + intros H. destruct (IH H) as (pre & suf & Hl & Hm & Hfirst).
      exists (String c pre), suf. repeat split; [simpl; now rewrite Hl | exact Hm |].
      intros [|c' pre'] suf' E' Hlen.
      * simpl in E'. subst suf'. now apply match_here_none.
      * simpl in E', Hlen. injection E' as -> E'.
        apply (Hfirst pre'); [assumption | lia].
Qed.

Lemma regex_match_none (l : string) :
  regex_match l = None <-> ~ contains_pattern l.
Proof.
  split.
  - intros Hn (pre & suf & Hl & Hb). subst l.
    induction pre as [|c pre IH].
    + simpl in Hn. rewrite regex_match_eq in Hn.
      apply begins_pattern_iff in Hb as (d & Hd). rewrite Hd in Hn. discriminate.
    + apply IH. rewrite regex_match_eq in Hn.
      destruct (match_here (String c pre ++ suf)); [discriminate | exact Hn].
  - intros Hnc. destruct (regex_match l) as [d|] eqn:E; [|reflexivity].
    exfalso. apply Hnc. apply regex_match_sound in E as (pre & suf & Hl & Hm & _).
    exists pre, suf. split; [assumption|]. apply begins_pattern_iff. eauto.
Qed.

(** [regex_match] computes the first occurrence of the pattern. *)
Lemma regex_match_first (l d : string) :
  regex_match l = Some d <-> first_match l d.
Proof.
  split.
  - intros H. apply regex_match_sound in H as (pre & suf & Hl & Hm & Hfirst).
    apply match_here_spec in Hm as (rest & Hs & Ht & Hne).
    exists pre, (drop_digits rest). subst d suf.
    repeat split; auto.
    + rewrite <- take_drop_digits. exact Hl.
    + apply take_digits_digits.
    + apply drop_digits_start.
  - intros (pre & post & Hl & Hne & Hd & Hp & Hfirst). subst l.
    apply regex_match_at; [|exact Hfirst].
    apply match_here_spec. exists (d ++ post). repeat split; auto.
    now apply take_digits_app.
Qed.

Lemma regex_match_digits (l d : string) :
  regex_match l = Some d -> d <> "" /\ all_digits d = true.
Proof.
  intros H. apply regex_match_first in H as (? & ? & _ & Hne & Hd & _). auto.
Qed.

(** ** From the stderr text to the error map *)

(** The empty stderr is skipped by the truthiness test; its single blank
    line would not have matched anyway. *)
Lemma extract_stderr_lines (stderr : option string) :
  extractDiagnostics stderr = errorMap (stderr_lines stderr).
Proof. destruct stderr as [[|c s]|]; reflexivity. Qed.

Lemma insertion_order_stderr (stderr : option string) :
  insertion_order (errorLines stderr) = insertion_order (stderr_lines stderr).
Proof. destruct stderr as [[|c s]|]; reflexivity. Qed.

Lemma key_of_first_match (l d : string) :
  first_match l d -> key_of l = Some (ToString (lineNumber d)).
Proof. intros H. apply regex_match_first in H. unfold key_of. now rewrite H. Qed.

Lemma key_of_inv (l k : string) :
  key_of l = Some k -> exists d, first_match l d /\ k = ToString (lineNumber d).
Proof.
  unfold key_of. destruct (regex_match l) as [d|] eqn:E; [|discriminate].
  intros H. injection H as <-. exists d. split; [now apply regex_match_first | reflexivity].
Qed.

Lemma key_of_none (l : string) : key_of l = None <-> ~ contains_pattern l.
Proof.
  rewrite <- regex_match_none. unfold key_of.
  destruct (regex_match l); split; congruence.
Qed.

Lemma first_occurrences_In (k : string) (ks : list string) :
  In k (first_occurrences ks) <-> In k ks.
Proof.
  induction ks as [|h t IH]; simpl; [tauto|].
  rewrite filter_In, IH. destruct (String.eqb_spec k h) as [->|Hne].
  - tauto.
  - simpl. intuition congruence.
Qed.

Lemma matched_keys_In (k : string) (ls : list string) :
  In k (matched_keys ls) <-> exists l, In l ls /\ key_of l = Some k.
Proof.
  unfold matched_keys. rewrite in_flat_map. split.
  - intros (l & Hl & Hk). exists l. split; [assumption|].
    destruct (key_of l) as [k'|]; simpl in Hk; [|tauto].
    destruct Hk as [->|[]]. reflexivity.
  - intros (l & Hl & Hk). exists l. split; [assumption|]. rewrite Hk. now left.
Qed.

(** Every key of the map comes from a matching line, and every matching
    line has its key in the map. *)
Lemma errorMap_In (k : string) (ls : list string) :
  In k (own_names (errorMap ls)) <-> exists l, In l ls /\ key_of l = Some k.
Proof.
  rewrite own_names_errorMap. unfold insertion_order.
  now rewrite first_occurrences_In, matched_keys_In.
Qed.

Lemma errorMap_none (ls : list string) :
  (forall l, In l ls -> key_of l = None) -> errorMap ls = empty.
Proof.
  unfold errorMap. generalize empty.
  induction ls as [|l ls IH]; intros m H; simpl; [reflexivity|].
  rewrite record_line_key, (H l) by now left.
  apply IH. intros l' Hl'. apply H. now right.
Qed.

(** ** The properties of the diagnostic mapper *)

(** C1, as the code has it.  Every line of the stderr text in which the
    pattern "line " followed by digits occurs is recorded with the whole
    line as its message: with [d] the digit run of the first occurrence,
    the callback stores the line under the key of [parseInt(d) - 1]; the
    finished set has an entry under that key, whose message is a whole
    line of the text with that same index, and is this very line unless a
    later line has the same index.  When the digit run denotes a number
    of at most 2^53, the line index is that number minus one.  The
    traceback of the specification yields exactly one diagnostic, at
    index 2, with the first line as its message, and a "line 1" match has
    index 0. *)
Theorem C1_matching_line_recorded :
  (forall (stderr : option string) (line d : string),
      In line (stderr_lines stderr) -> first_match line d ->
      let k := ToString (lineNumber d) in
      let ds := extractDiagnostics stderr in
      (digits_value d 0 <= 2 ^ 53 ->
       lineNumber d = Finite (digits_value d 0 - 1))
      /\ (forall m, get_own (record_line m line) k = Some line)
      /\ (exists msg d',
             get_own ds k = Some msg /\ In msg (stderr_lines stderr)
             /\ first_match msg d' /\ ToString (lineNumber d') = k)
      /\ (forall pre post,
             stderr_lines stderr = (pre ++ line :: post)%list ->
             (forall l' d', In l' post -> first_match l' d' ->
                            ToString (lineNumber d') <> k) ->
             get_own ds k = Some line))
  /\ extractDiagnostics (Some traceback) = [("2", traceback_head)]
  /\ (forall line, first_match line "1" ->
        lineNumber "1" = Finite 0 /\ key_of line = Some "0").
Proof.
  split; [|split].
  - intros stderr line d Hin Hm k ds.
    pose proof (key_of_first_match line d Hm) as Hk. fold k in Hk.
    pose proof Hm as Hr. apply regex_match_first in Hr.
    destruct (regex_match_digits line d Hr) as [Hne Hd].
    assert (Hds : forall k0, get_own ds k0
                   = match last_with_key k0 (stderr_lines stderr) with
                     | Some l => Some l
                     | None => None
                     end).
    { intros k0. unfold ds. rewrite extract_stderr_lines. unfold errorMap.
      now rewrite get_own_fold. }
    split; [|split; [|split]].
    + now apply lineNumber_exact.
    + intros m. rewrite get_own_record_line.
      apply has_key_true in Hk. now rewrite Hk.
    + destruct (last_with_key_some k _ line Hin Hk) as [msg Hmsg].
      destruct (last_with_key_spec k _ msg Hmsg) as [Hmsg_in Hmsg_key].
      apply key_of_inv in Hmsg_key as (d' & Hm' & Hk').
      exists msg, d'. rewrite Hds, Hmsg. auto.
    + intros pre post Hsplit Hpost. rewrite Hds, Hsplit.
      rewrite (last_with_key_app k pre post line Hk); [reflexivity|].
      intros l' Hl' Hk'. apply key_of_inv in Hk' as (d' & Hm' & Hk').
      now apply (Hpost l' d' Hl' Hm').
  - vm_compute. reflexivity.
  - intros line Hm. split; [vm_compute; reflexivity|].
    now rewrite (key_of_first_match line "1" Hm).
Qed.

Lemma C1_witness :
  In traceback_head (stderr_lines (Some traceback))
  /\ first_match traceback_head "3"
  /\ digits_value "3" 0 <= 2 ^ 53
  /\ lineNumber "3" = Finite (digits_value "3" 0 - 1)
  /\ get_own (extractDiagnostics (Some traceback)) (ToString (lineNumber "3"))
     = Some traceback_head.
Proof.
  assert (Hin : In traceback_head (stderr_lines (Some traceback)))
    by (vm_compute; left; reflexivity).
  assert (Hm : first_match traceback_head "3")
    by (apply regex_match_first; vm_compute; reflexivity).
  assert (Hb : digits_value "3" 0 <= 2 ^ 53) by (vm_compute; discriminate).
  split; [exact Hin | split; [exact Hm | split; [exact Hb|]]].
  destruct (proj1 C1_matching_line_recorded (Some traceback) traceback_head "3"
              Hin Hm) as (Hidx & _ & _ & Hlast).
  split; [exact (Hidx Hb)|].
  apply (Hlast [] (tl (stderr_lines (Some traceback)))).
  - vm_compute. reflexivity.
  - intros l' d' Hl' Hm' Hk'. apply key_of_first_match in Hm'.
    rewrite Hk' in Hm'. vm_compute in Hl'.
    destruct Hl' as [<-|[<-|[]]]; vm_compute in Hm'; discriminate.
Defined.

(** C1 as stated fails: the digit run 9007199254740994 is parsed exactly,
    but one less is not a double, so the line is filed under the line
    index 9007199254740992, two less than the number. *)
Lemma C1_counterexample :
  let line := "line 9007199254740994" in
  first_match line "9007199254740994"
  /\ digits_value "9007199254740994" 0 = 9007199254740994
  /\ parseInt "9007199254740994" = Finite 9007199254740994
  /\ lineNumber "9007199254740994" = Finite 9007199254740992
  /\ extractDiagnostics (Some line) = [("9007199254740992", line)]
  /\ Finite 9007199254740992 <> Finite (9007199254740994 - 1).
Proof.
  cbv zeta. split; [apply regex_match_first; vm_compute; reflexivity|].
  repeat split; try (vm_compute; reflexivity). vm_compute. discriminate.
Qed.

(** C2.  When two lines of the stderr text have the same line index, the
    set has exactly one entry under that index and its message is the
    last line of the stream with that index.  A line whose first match is
    "line 5" has index 4, and the two-line sample yields the single entry
    (4, later line). *)
Theorem C2_last_write_wins :
  (forall (stderr : option string) (pre mid post : list string)
          (l1 l2 d1 d2 k : string),
      stderr_lines stderr = (pre ++ l1 :: mid ++ l2 :: post)%list ->
      first_match l1 d1 -> first_match l2 d2 ->
      ToString (lineNumber d1) = k -> ToString (lineNumber d2) = k ->
      (forall l d, In l post -> first_match l d ->
                   ToString (lineNumber d) <> k) ->
      let ds := extractDiagnostics stderr in
      count_occ string_dec (own_names ds) k = 1%nat
      /\ count_occ string_dec (keys ds) k = 1%nat
      /\ get_own ds k = Some l2)
  /\ (forall line, first_match line "5" -> key_of line = Some "4")
  /\ extractDiagnostics (Some two_on_line_5) = [("4", error_5)].
Proof.
  split; [|split].
  - intros stderr pre mid post l1 l2 d1 d2 k Hsplit H1 H2 K1 K2 Hpost ds.
    pose proof (key_of_first_match l2 d2 H2) as Hk. rewrite K2 in Hk.
    assert (Hin : In k (own_names ds)).
    { unfold ds. rewrite extract_stderr_lines. apply errorMap_In.
      exists l2. split; [|exact Hk]. rewrite Hsplit.
      apply in_or_app. right. right. apply in_or_app. right. now left. }
    assert (Hnd : NoDup (own_names ds)).
    { unfold ds. rewrite extract_stderr_lines. apply NoDup_errorMap. }
    split; [|split].
    + now apply NoDup_count_occ'.
    + apply NoDup_count_occ'.
      * eapply Permutation_NoDup; [symmetry; apply keys_perm | exact Hnd].
      * now apply keys_In.
    + unfold ds. rewrite extract_stderr_lines. unfold errorMap.
      rewrite get_own_fold, Hsplit.
      replace (pre ++ l1 :: mid ++ l2 :: post)%list
        with ((pre ++ l1 :: mid) ++ l2 :: post)%list
        by (rewrite <- app_assoc; reflexivity).
      rewrite (last_with_key_app k _ post l2 Hk); [reflexivity|].
      intros l Hl Hk'. apply key_of_inv in Hk' as (d & Hm & Hk').
      now apply (Hpost l d Hl Hm).
  - intros line Hm. now rewrite (key_of_first_match line "5" Hm).
  - vm_compute. reflexivity.
Qed.

Lemma C2_witness :
  stderr_lines (Some two_on_line_5) = ([] ++ warning_5 :: [] ++ error_5 :: [])%list
  /\ first_match warning_5 "5" /\ first_match error_5 "5"
  /\ count_occ string_dec (own_names (extractDiagnostics (Some two_on_line_5))) "4"
     = 1%nat
  /\ get_own (extractDiagnostics (Some two_on_line_5)) "4" = Some error_5.
Proof.
  assert (Hs : stderr_lines (Some two_on_line_5)
               = ([] ++ warning_5 :: [] ++ error_5 :: [])%list)
    by (vm_compute; reflexivity).
  assert (H1 : first_match warning_5 "5")
    by (apply regex_match_first; vm_compute; reflexivity).
  assert (H2 : first_match error_5 "5")
    by (apply regex_match_first; vm_compute; reflexivity).
  destruct (proj1 C2_last_write_wins (Some two_on_line_5) [] [] []
              warning_5 error_5 "5" "5" "4" Hs H1 H2)
    as (Hc & _ & Hg).
  - vm_compute. reflexivity.
  - vm_compute. reflexivity.
  - intros l d [].
  - repeat split; assumption.
Defined.

(** C3.  When no line of the stderr text contains the pattern, the set is
    empty, no annotation is made, and the run completes normally with
    nothing logged; this covers the empty text and an absent stderr. *)
Theorem C3_no_match_is_empty :
  (forall text : option string,
      (forall l, In l (stderr_lines text) -> ~ contains_pattern l) ->
      extractDiagnostics text = empty
      /\ toAnnotations (extractDiagnostics text) = []
      /\ forall executeCode st ed r,
           editorRef st = Some ed -> getValue ed <> "" ->
           executeCode (language st) (getValue ed)
           = Returns {| run := Some r |} ->
           stderr r = text ->
           exists st', runCode executeCode st = Resolved st'
                       /\ errors st' = empty /\ console st' = console st)
  /\ extractDiagnostics (Some "") = empty
  /\ extractDiagnostics None = empty.
Proof.
  split; [|split; reflexivity].
  intros stderr0 Hnone.
  assert (E : extractDiagnostics stderr0 = empty).
  { rewrite extract_stderr_lines. apply errorMap_none.
    intros l Hl. apply key_of_none. now apply Hnone. }
  split; [exact E | split; [now rewrite E|]].
  intros executeCode st ed r Hed Hsrc Hexec Hr.
  unfold runCode. rewrite Hed.
  destruct (getValue ed) as [|c s] eqn:Hv; [congruence|].
  rewrite Hexec. simpl.
  eexists. split; [reflexivity|]. simpl. rewrite Hr. auto.
Qed.

Lemma C3_witness :
  (forall l, In l (stderr_lines (Some "NameError: name 'x' is not defined")) ->
             ~ contains_pattern l)
  /\ extractDiagnostics (Some "NameError: name 'x' is not defined") = empty.
Proof.
  assert (H : forall l,
             In l (stderr_lines (Some "NameError: name 'x' is not defined")) ->
             ~ contains_pattern l).
  { intros l [<-|[]]. apply regex_match_none. vm_compute. reflexivity. }
  split; [exact H|].
  exact (proj1 (proj1 C3_no_match_is_empty _ H)).
Defined.




Lemma keys_record_line_overwrite (m : obj) (line k : string) :
  key_of line = Some k -> In k (own_names m) ->
  own_names (record_line m line) = own_names m
  /\ keys (record_line m line) = keys m.
Proof.
  intros Hk Hin. assert (E : own_names (record_line m line) = own_names m).
  { rewrite own_names_record_line, Hk.
    apply mem_In in Hin. now rewrite Hin. }
  split; [exact E|]. unfold keys. now rewrite E.
Qed.

(** C5, as the code has it.  The annotation sequence follows
    [Object.keys]: first the diagnostics whose line index is an array
    index (0 to 2^32 - 2), in strictly ascending numeric order, then the
    others (index -1, and indices from 2^32 - 1 on) in the order in which
    they were first inserted; the sidebar list has the same order, and
    overwriting an existing line index reorders nothing. *)
Theorem C5_annotation_order :
  forall text : option string,
    let ds := extractDiagnostics text in
    let order := insertion_order (errorLines text) in
    (exists indices,
        keys ds
        = (indices ++ filter (fun k => negb (is_array_index k)) order)%list
        /\ ascending indices
        /\ Permutation indices (filter is_array_index order))
    /\ toAnnotations ds = map (decoration ds) (keys ds)
    /\ errorEntries ds = map (fun k => (displayLine k, get ds k)) (keys ds)
    /\ forall (m : obj) (line k : string),
         key_of line = Some k -> In k (own_names m) ->
         keys (record_line m line) = keys m.
Proof.
  intros text ds order.
  assert (E : own_names ds = order).
  { unfold ds, order, extractDiagnostics. apply own_names_errorMap. }
  assert (Hnd : NoDup order).
  { rewrite <- E. unfold ds, extractDiagnostics. apply NoDup_errorMap. }
  split; [|split; [reflexivity | split; [reflexivity|]]].
  - exists (sort_indices (filter is_array_index order)).
    split; [|split].
    + unfold keys. now rewrite E.
    + now apply sort_indices_ascending.
    + apply sort_indices_perm.
  - intros m line k Hk Hin. now apply (keys_record_line_overwrite m line k).
Qed.

Lemma C5_witness :
  key_of "again at line 3" = Some "2"
  /\ In "2" (own_names [("4", "line 5"); ("2", "line 3")])
  /\ keys (record_line [("4", "line 5"); ("2", "line 3")] "again at line 3")
     = keys [("4", "line 5"); ("2", "line 3")].
Proof.
  assert (Hk : key_of "again at line 3" = Some "2") by (vm_compute; reflexivity).
  assert (Hin : In "2" (own_names [("4", "line 5"); ("2", "line 3")]))
    by (right; left; reflexivity).
  repeat (split; [assumption|]).
  exact (proj2 (proj2 (proj2 (C5_annotation_order None))) _ _ _ Hk Hin).
Defined.

(** C5 as stated fails: "line 5" is inserted before "line 3", yet the
    annotation of line 3 comes first. *)
Lemma C5_counterexample :
  let text := Some ("line 5" ++ nl ++ "line 3") in
  let ds := extractDiagnostics text in
  insertion_order (errorLines text) = ["4"; "2"]
  /\ own_names ds = ["4"; "2"]
  /\ keys ds = ["2"; "4"]
  /\ map (fun a => (startLineNumber (range a), hoverMessage a)) (toAnnotations ds)
     = [(Finite 3, VString "line 3"); (Finite 5, VString "line 5")]
  /\ map fst (errorEntries ds) = [Finite 3; Finite 5]
  /\ keys ds <> insertion_order (errorLines text).
Proof.
  cbv zeta. repeat split; try (vm_compute; reflexivity).
  vm_compute. discriminate.
Qed.

(** C6, as the code has it.  Every line index of the set comes from a
    matching line of the text and is either Infinity (a digit run beyond
    the range of a double) or an integer that is at least -1; it is -1
    exactly when the digit run denotes zero, hence nonnegative whenever
    the reported line number is at least 1. *)
Theorem C6_line_index_range :
  forall (text : option string) (k : string),
    In k (own_names (extractDiagnostics text)) ->
    exists line d,
      In line (stderr_lines text) /\ first_match line d
      /\ k = ToString (lineNumber d)
      /\ (lineNumber d = Inf false
          \/ exists z, lineNumber d = Finite z /\ -1 <= z
                       /\ (z = -1 <-> digits_value d 0 = 0)
                       /\ (1 <= digits_value d 0 -> 0 <= z)).
Proof.
  intros text k Hk. rewrite extract_stderr_lines in Hk.
  apply errorMap_In in Hk as (line & Hin & Hkey).
  apply key_of_inv in Hkey as (d & Hm & ->).
  exists line, d. repeat split; auto.
  pose proof Hm as Hr. apply regex_match_first in Hr.
  destruct (regex_match_digits line d Hr) as [Hne Hd].
  destruct (lineNumber_cases d Hne Hd) as [E|(z & E & Hz & Hz0)]; [now left|].
  right. exists z. repeat split; try tauto; lia.
Qed.

Lemma C6_witness :
  In "2" (own_names (extractDiagnostics (Some traceback)))
  /\ exists line d,
       In line (stderr_lines (Some traceback)) /\ first_match line d
       /\ "2" = ToString (lineNumber d)
       /\ (lineNumber d = Inf false
           \/ exists z, lineNumber d = Finite z /\ -1 <= z
                        /\ (z = -1 <-> digits_value d 0 = 0)
                        /\ (1 <= digits_value d 0 -> 0 <= z)).
Proof.
  assert (Hin : In "2" (own_names (extractDiagnostics (Some traceback))))
    by (vm_compute; left; reflexivity).
  split; [exact Hin|].
  exact (C6_line_index_range (Some traceback) "2" Hin).
Defined.

(** C6 as stated fails: "line 0" is filed under the line index -1. *)
Lemma C6_counterexample :
  let line := "error on line 0" in
  first_match line "0"
  /\ lineNumber "0" = Finite (-1)
  /\ extractDiagnostics (Some line) = [(ToString (Finite (-1)), line)]
  /\ ToString (Finite (-1)) = "-1"
  /\ -1 < 0.
Proof.
  cbv zeta. split; [apply regex_match_first; vm_compute; reflexivity|].
  repeat split; vm_compute; reflexivity.
Qed.

(** ** The properties of [runCode] *)

Lemma runCode_returns (executeCode : string -> string -> Outcome)
      (st : State) (ed : Editor) (r : Run) :
  editorRef st = Some ed -> getValue ed <> "" ->
  executeCode (language st) (getValue ed) = Returns {| run := Some r |} ->
  runCode executeCode st = Resolved (showResult st ed r).
Proof.
  intros Hed Hsrc Hexec. unfold runCode. rewrite Hed.
  destruct (getValue ed) as [|c s] eqn:Hv; [congruence|].
  now rewrite Hexec.
Qed.

(** C7.  The set depends on the stderr text alone: whatever the component
    held before, two extractions from the same text give the same set,
    with the same keys and the same message under each key; and two runs
    in a row, with the service answering alike, leave the set of the
    second run equal to that of the first. *)
Theorem C7_extraction_repeatable :
  (forall (st1 st2 : State) (ed1 ed2 : Editor) (r1 r2 : Run),
      stderr r1 = stderr r2 ->
      let e1 := errors (showResult st1 ed1 r1) in
      let e2 := errors (showResult st2 ed2 r2) in
      e1 = extractDiagnostics (stderr r1)
      /\ e1 = e2
      /\ keys e1 = keys e2
      /\ forall k, get e1 k = get e2 k)
  /\ (forall (executeCode : string -> string -> Outcome) (st st1 st2 : State),
         runCode executeCode st = Resolved st1 ->
         runCode executeCode st1 = Resolved st2 ->
         errors st2 = errors st1 /\ output st2 = output st1).
Proof.
  split.
  - intros st1 st2 ed1 ed2 r1 r2 H e1 e2.
    assert (E : e1 = e2) by (unfold e1, e2; simpl; now rewrite H).
    split; [reflexivity|]. split; [exact E|]. rewrite E. auto.
  - intros executeCode st st1 st2 H1 H2. unfold runCode in H1.
    destruct (editorRef st) as [ed|] eqn:Hed; [|discriminate].
    destruct (getValue ed) as [|c s] eqn:Hv.
    + injection H1 as <-. unfold runCode in H2.
      rewrite Hed, Hv in H2. injection H2 as <-. auto.
    + destruct (executeCode (language st) (String c s)) as [error|result] eqn:Hx.
      * injection H1 as <-. unfold runCode in H2.
        cbn [editorRef language consoleError] in H2.
        rewrite Hed, Hv, Hx in H2. injection H2 as <-. auto.
      * destruct (run result) as [r|] eqn:Hrun.
        -- injection H1 as <-. unfold runCode in H2.
           cbn [editorRef language showResult deltaDecorations getValue] in H2.
           rewrite Hv, Hx, Hrun in H2. injection H2 as <-. auto.
        -- injection H1 as <-. unfold runCode in H2.
           cbn [editorRef language consoleError] in H2.
           rewrite Hed, Hv, Hx, Hrun in H2. injection H2 as <-. auto.
Qed.

Lemma C7_witness :
  stderr {| stdout := Some "a"; stderr := Some traceback |}
  = stderr {| stdout := None; stderr := Some traceback |}
  /\ runCode (answering {| stdout := Some "a"; stderr := Some traceback |})
       mounted
     = Resolved (showResult mounted sampleEditor
                   {| stdout := Some "a"; stderr := Some traceback |})
  /\ errors (showResult mounted sampleEditor
               {| stdout := Some "a"; stderr := Some traceback |})
     = errors (showResult initialState sampleEditor
                 {| stdout := None; stderr := Some traceback |}).
Proof.
  split; [reflexivity | split; [reflexivity|]].
  exact (proj1 (proj2 (proj1 C7_extraction_repeatable mounted initialState
                         sampleEditor sampleEditor
                         {| stdout := Some "a"; stderr := Some traceback |}
                         {| stdout := None; stderr := Some traceback |}
                         eq_refl))).
Defined.

(** C8.  When the execution call throws, [runCode] still completes
    normally: the error is written to the console, and the diagnostics,
    the output and the decorations of the editor stay as they were. *)
Theorem C8_service_failure_is_logged :
  forall (executeCode : string -> string -> Outcome) (st : State)
         (ed : Editor) (error : string),
    editorRef st = Some ed -> getValue ed <> "" ->
    executeCode (language st) (getValue ed) = Throws error ->
    exists st',
      runCode executeCode st = Resolved st'
      /\ errors st' = errors st
      /\ output st' = output st
      /\ editorRef st' = editorRef st
      /\ console st'
         = (console st ++ [("Error executing code: " ++ error)%string])%list.
Proof.
  intros executeCode st ed error Hed Hsrc Hexec.
  exists (consoleError st error). unfold runCode. rewrite Hed.
  destruct (getValue ed) as [|c s] eqn:Hv; [congruence|].
  rewrite Hexec. split; [reflexivity|]. simpl. auto.
Qed.

Lemma C8_witness :
  editorRef mounted = Some sampleEditor
  /\ getValue sampleEditor <> ""
  /\ failingService (language mounted) (getValue sampleEditor)
     = Throws "Network Error"
  /\ exists st',
       runCode failingService mounted = Resolved st'
       /\ errors st' = errors mounted
       /\ output st' = output mounted
       /\ editorRef st' = editorRef mounted
       /\ console st'
          = (console mounted ++ ["Error executing code: Network Error"])%list.
Proof.
  assert (H1 : editorRef mounted = Some sampleEditor) by reflexivity.
  assert (H2 : getValue sampleEditor <> "") by (simpl; discriminate).
  assert (H3 : failingService (language mounted) (getValue sampleEditor)
               = Throws "Network Error") by reflexivity.
  repeat (split; [assumption|]).
  exact (C8_service_failure_is_logged failingService mounted sampleEditor
           "Network Error" H1 H2 H3).
Defined.

(** C10.  Two results with the same stderr give the same diagnostics and
    the same decorations whatever their stdout; the output state is the
    stdout text itself. *)
Theorem C10_stdout_noninterference :
  forall (exec1 exec2 : string -> string -> Outcome) (st : State)
         (ed : Editor) (r1 r2 : Run),
    editorRef st = Some ed -> getValue ed <> "" ->
    exec1 (language st) (getValue ed) = Returns {| run := Some r1 |} ->
    exec2 (language st) (getValue ed) = Returns {| run := Some r2 |} ->
    stderr r1 = stderr r2 ->
    exists st1 st2,
      runCode exec1 st = Resolved st1 /\ runCode exec2 st = Resolved st2
      /\ errors st1 = errors st2
      /\ errors st1 = extractDiagnostics (stderr r1)
      /\ editorRef st1 = editorRef st2
      /\ (forall s, stdout r1 = Some s -> output st1 = s)
      /\ (forall s, stdout r2 = Some s -> output st2 = s).
Proof.
  intros exec1 exec2 st ed r1 r2 Hed Hsrc H1 H2 Herr.
  exists (showResult st ed r1), (showResult st ed r2).
  rewrite (runCode_returns exec1 st ed r1), (runCode_returns exec2 st ed r2)
    by assumption.
  unfold showResult. simpl. rewrite Herr.
  repeat split; intros s Hs; now rewrite Hs.
Qed.

Lemma C10_witness :
  editorRef mounted = Some sampleEditor
  /\ getValue sampleEditor <> ""
  /\ stderr {| stdout := Some "a"; stderr := Some traceback |}
     = stderr {| stdout := Some "b"; stderr := Some traceback |}
  /\ exists st1 st2,
       runCode (answering {| stdout := Some "a"; stderr := Some traceback |})
         mounted = Resolved st1
       /\ runCode (answering {| stdout := Some "b"; stderr := Some traceback |})
            mounted = Resolved st2
       /\ errors st1 = errors st2
       /\ output st1 = "a" /\ output st2 = "b".
Proof.
  assert (H1 : editorRef mounted = Some sampleEditor) by reflexivity.
  assert (H2 : getValue sampleEditor <> "") by (simpl; discriminate).
  repeat (split; [assumption || reflexivity|]).
  destruct (C10_stdout_noninterference
              (answering {| stdout := Some "a"; stderr := Some traceback |})
              (answering {| stdout := Some "b"; stderr := Some traceback |})
              mounted sampleEditor
              {| stdout := Some "a"; stderr := Some traceback |}
              {| stdout := Some "b"; stderr := Some traceback |}
              H1 H2 eq_refl eq_refl eq_refl)
    as (st1 & st2 & R1 & R2 & E & _ & _ & O1 & O2).
  exists st1, st2. repeat split; auto.
Defined.

(** ** The properties of the registry *)

Lemma get_absent (o : obj) (k : string) :
  ~ In k (own_names o) ->
  get o k = if inherited k then VInherited k else VUndefined.
Proof.
  intros Hn. unfold get. destruct (get_own o k) as [v|] eqn:E; [|reflexivity].
  exfalso. apply Hn. apply get_own_In. eauto.
Qed.

(** C9, as the code has it.  The snippet table has exactly the six ids,
    each with a non-empty snippet, and the version table exactly python
    and java.  A lookup never raises; for any other id it gives
    [undefined], unless the id names a property that every object inherits
    from [Object.prototype], in which case it gives that property. *)
Theorem C9_registry_lookup :
  own_names CODE_SNIPPETS
  = ["python"; "java"; "javascript"; "typescript"; "csharp"; "php"]
  /\ own_names LANGUAGE_VERSIONS = ["python"; "java"]
  /\ (forall id, In id (own_names CODE_SNIPPETS) ->
        exists s, starterSnippet (getEntry id) = VString s /\ s <> "")
  /\ (forall id, In id (own_names LANGUAGE_VERSIONS) ->
        exists s, runtimeVersion (getEntry id) = VString s /\ s <> "")
  /\ (forall id, ~ In id (own_names CODE_SNIPPETS) ->
        starterSnippet (getEntry id)
        = if inherited id then VInherited id else VUndefined)
  /\ (forall id, ~ In id (own_names LANGUAGE_VERSIONS) ->
        runtimeVersion (getEntry id)
        = if inherited id then VInherited id else VUndefined).
Proof.
  split; [reflexivity | split; [reflexivity|]].
  split; [|split; [|split]].
  - intros id Hin. simpl in Hin.
    repeat (destruct Hin as [<-|Hin];
            [eexists; split; [vm_compute; reflexivity | discriminate]|]).
    destruct Hin.
  - intros id Hin. simpl in Hin.
    repeat (destruct Hin as [<-|Hin];
            [eexists; split; [vm_compute; reflexivity | discriminate]|]).
    destruct Hin.
  - intros id Hn. now apply get_absent.
  - intros id Hn. now apply get_absent.
Qed.

Lemma C9_witness :
  In "php" (own_names CODE_SNIPPETS)
  /\ ~ In "ruby" (own_names CODE_SNIPPETS)
  /\ (exists s, starterSnippet (getEntry "php") = VString s /\ s <> "")
  /\ starterSnippet (getEntry "ruby") = VUndefined.
Proof.
  assert (H1 : In "php" (own_names CODE_SNIPPETS))
    by (vm_compute; do 5 right; left; reflexivity).
  assert (H2 : ~ In "ruby" (own_names CODE_SNIPPETS)).
  { vm_compute. intros H.
    repeat (destruct H as [H|H]; [discriminate H|]). exact H. }
  repeat (split; [assumption|]). split.
  - exact (proj1 (proj2 (proj2 C9_registry_lookup)) "php" H1).
  - exact (proj1 (proj2 (proj2 (proj2 (proj2 C9_registry_lookup)))) "ruby" H2).
Defined.

(** C9 as stated fails: "toString" is not an id of the table, yet looking
    it up gives the method inherited from [Object.prototype], not
    [undefined] and not an empty snippet. *)
Lemma C9_counterexample :
  ~ In "toString" (own_names CODE_SNIPPETS)
  /\ starterSnippet (getEntry "toString") = VInherited "toString"
  /\ starterSnippet (getEntry "toString") <> VUndefined
  /\ starterSnippet (getEntry "toString") <> VString "".
Proof.
  split.
  - vm_compute. intros H.
    repeat (destruct H as [H|H]; [discriminate H|]). exact H.
  - split; [vm_compute; reflexivity | split; vm_compute; discriminate].
Qed.

(** ** Further properties: splitting into lines *)

Lemma split_nonempty (s : string) : split s <> [].
Proof.
  induction s as [|c s IH]; simpl; [discriminate|].
  destruct (Ascii.eqb c LF); [discriminate|].
  destruct (split s); [contradiction | discriminate].
Qed.

Lemma concat_cons (sep x : string) (xs : list string) :
  xs <> [] -> String.concat sep (x :: xs) = x ++ sep ++ String.concat sep xs.
Proof. destruct xs; [contradiction | reflexivity]. Qed.

Lemma split_join (s : string) : String.concat nl (split s) = s.
Proof.
  induction s as [|c s IH]; [reflexivity|]. cbn [split].
  destruct (Ascii.eqb_spec c LF) as [->|Hne].
  - rewrite concat_cons by apply split_nonempty. now rewrite IH.
  - pose proof (split_nonempty s) as Hn.
    destruct (split s) as [|l ls]; [contradiction|].
    destruct ls as [|l' ls].
    + simpl in *. now rewrite IH.
    + rewrite concat_cons by discriminate.
      rewrite concat_cons in IH by discriminate.
      subst s. reflexivity.
Qed.

Lemma split_no_LF (s : string) :
  Forall (fun l => contains_char LF l = false) (split s).
Proof.
  induction s as [|c s IH]; cbn [split].
  - repeat constructor.
  - destruct (Ascii.eqb_spec c LF) as [->|Hne].
    + constructor; [reflexivity | exact IH].
    + pose proof (split_nonempty s) as Hn.
      destruct (split s) as [|l ls]; [contradiction|].
      inversion IH as [|? ? Hl Hls]; subst. constructor; [|exact Hls].
      simpl. rewrite Hl. destruct (Ascii.eqb_spec c LF); [contradiction | reflexivity].
Qed.

Lemma split_length (s : string) :
  List.length (split s) = S (count_char LF s).
Proof.
  induction s as [|c s IH]; cbn [split count_char]; [reflexivity|].
  destruct (Ascii.eqb c LF).
  - simpl. now rewrite IH.
  - pose proof (split_nonempty s) as Hn.
    destruct (split s) as [|l ls]; [contradiction | exact IH].
Qed.

Lemma split_app (a b : string) :
  split (a ++ nl ++ b) = (split a ++ split b)%list.
Proof.
  induction a as [|c a IH].
  - reflexivity.
  - cbn [append split]. cbn [append] in IH. rewrite IH.
    destruct (Ascii.eqb c LF); [reflexivity|].
    pose proof (split_nonempty a) as Hn.
    destruct (split a) as [|l ls]; [contradiction | reflexivity].
Qed.

(** X1.  Splitting the stderr text loses nothing and cuts at every line
    feed: joining the lines with a line feed gives the text back, no line
    contains a line feed, and there is one line more than there are line
    feeds. *)
Theorem X1_split_partitions_text :
  forall s : string,
    String.concat nl (split s) = s
    /\ Forall (fun l => contains_char LF l = false) (split s)
    /\ List.length (split s) = S (count_char LF s).
Proof.
  intros s. split; [apply split_join | split].
  - apply split_no_LF.
  - apply split_length.
Qed.

(** ** Further properties: the error map in closed form *)

(** Two objects with the same names in the same order and the same value
    under each name are the same object. *)
Lemma obj_ext (o1 o2 : obj) :
  NoDup (own_names o1) -> own_names o1 = own_names o2 ->
  (forall k, get_own o1 k = get_own o2 k) -> o1 = o2.
Proof.
  revert o2. induction o1 as [|[k1 v1] o1 IH]; intros [|[k2 v2] o2] Hnd Hn Hg;
    try discriminate; [reflexivity|].
  simpl in Hn. injection Hn as -> Hn.
  pose proof (Hg k2) as Hk. simpl in Hk. rewrite String.eqb_refl in Hk.
  injection Hk as ->. f_equal.
  inversion Hnd as [|? ? Hnotin Hnd']; subst.
  apply IH; [assumption | assumption |].
  intros k. specialize (Hg k). simpl in Hg.
  destruct (String.eqb_spec k2 k) as [->|Hne]; [|exact Hg].
  destruct (get_own o1 k) as [v|] eqn:E1.
  - exfalso. apply Hnotin. apply get_own_In. eauto.
  - destruct (get_own o2 k) as [v|] eqn:E2; [|reflexivity].
    exfalso. apply Hnotin. unfold own_names in *. rewrite Hn.
    apply (get_own_In o2). eauto.
Qed.

Lemma own_names_final (lines ks : list string) :
  own_names (map (final_entry lines) ks) = ks.
Proof.
  unfold own_names. rewrite map_map. simpl. apply map_id.
Qed.

Lemma get_own_final (lines ks : list string) (k : string) :
  get_own (map (final_entry lines) ks) k
  = if mem k ks then Some (snd (final_entry lines k)) else None.
Proof.
  induction ks as [|h t IH]; [reflexivity|].
  cbn [map get_own final_entry fst]. unfold mem in *. cbn [existsb].
  rewrite (String.eqb_sym k h).
  destruct (String.eqb_spec h k) as [->|Hne]; [reflexivity | exact IH].
Qed.

Lemma insertion_order_In (k : string) (lines : list string) :
  In k (insertion_order lines) <-> exists l, In l lines /\ key_of l = Some k.
Proof.
  unfold insertion_order. now rewrite first_occurrences_In, matched_keys_In.
Qed.

Lemma errorMap_closed_form (lines : list string) :
  errorMap lines = map (final_entry lines) (insertion_order lines).
Proof.
  apply obj_ext.
  - apply NoDup_errorMap.
  - now rewrite own_names_errorMap, own_names_final.
  - intros k. unfold errorMap. rewrite get_own_fold, get_own_final.
    unfold final_entry. simpl.
    destruct (last_with_key k lines) as [l|] eqn:E.
    + apply last_with_key_spec in E as [Hin Hk].
      assert (Hm : mem k (insertion_order lines) = true).
      { apply mem_In, insertion_order_In. eauto. }
      now rewrite Hm.
    + destruct (mem k (insertion_order lines)) eqn:Hm; [|reflexivity].
      apply mem_In, insertion_order_In in Hm as (l & Hin & Hk).
      destruct (last_with_key_some k lines l Hin Hk) as [l' E']. congruence.
Qed.

(** X2.  The DiagnosticSet in closed form: its entries are the keys of the
    matching lines, each once, in the order of their first occurrence in
    the stream, and each key is paired with the last line of the stream
    filed under it. *)
Theorem X2_diagnostics_closed_form :
  forall text : option string,
    let lines := stderr_lines text in
    extractDiagnostics text = map (final_entry lines) (insertion_order lines)
    /\ NoDup (insertion_order lines)
    /\ forall k, In k (insertion_order lines) ->
         exists l d, last_with_key k lines = Some l /\ In l lines
                     /\ first_match l d /\ ToString (lineNumber d) = k.
Proof.
  intros text lines. split; [|split].
  - rewrite extract_stderr_lines. apply errorMap_closed_form.
  - rewrite <- own_names_errorMap. apply NoDup_errorMap.
  - intros k Hk. apply insertion_order_In in Hk as (l0 & Hin0 & Hk0).
    destruct (last_with_key_some k lines l0 Hin0 Hk0) as [l E].
    destruct (last_with_key_spec k lines l E) as [Hin Hkey].
    apply key_of_inv in Hkey as (d & Hm & ->). exists l, d. auto.
Qed.

Lemma X2_witness :
  In "2" (insertion_order (stderr_lines (Some traceback)))
  /\ exists l d, last_with_key "2" (stderr_lines (Some traceback)) = Some l
                 /\ In l (stderr_lines (Some traceback))
                 /\ first_match l d /\ ToString (lineNumber d) = "2".
Proof.
  assert (H : In "2" (insertion_order (stderr_lines (Some traceback))))
    by (vm_compute; left; reflexivity).
  split; [exact H|].
  exact (proj2 (proj2 (X2_diagnostics_closed_form (Some traceback))) "2" H).
Defined.

(** X3.  Extending the stream composes: the set of a text followed by a
    line feed and more text is obtained by running the callback over the
    added lines, starting from the set of the first text.  The keys of the
    first text keep their places, new keys come after them, and a message
    of the first text is replaced only by a later line with the same
    key. *)
Theorem X3_stream_extension :
  forall a b : string,
    let first := extractDiagnostics (Some a) in
    let whole := extractDiagnostics (Some (a ++ nl ++ b)) in
    whole = fold_left record_line (split b) first
    /\ (exists added, own_names whole = (own_names first ++ added)%list)
    /\ forall k, get_own whole k
                 = match last_with_key k (split b) with
                   | Some l => Some l
                   | None => get_own first k
                   end.
Proof.
  intros a b first whole.
  assert (E : whole = fold_left record_line (split b) first).
  { unfold whole, first. rewrite !extract_stderr_lines. cbn [stderr_lines].
    rewrite split_app. unfold errorMap. apply fold_left_app. }
  split; [exact E | split].
  - rewrite E, own_names_fold. eauto.
  - intros k. rewrite E. apply get_own_fold.
Qed.

Lemma length_first_occurrences (ks : list string) :
  (List.length (first_occurrences ks) <= List.length ks)%nat.
Proof.
  induction ks as [|k ks IH]; simpl; [lia|].
  pose proof (filter_length_le (fun k' => negb (String.eqb k' k))
                (first_occurrences ks)). lia.
Qed.

Lemma length_matched_keys (lines : list string) :
  List.length (matched_keys lines) = List.length (filter matches lines).
Proof.
  unfold matched_keys, matches, key_of.
  induction lines as [|l ls IH]; simpl; [reflexivity|].
  destruct (regex_match l); simpl; now rewrite IH.
Qed.

(** X4.  There is at most one diagnostic per matching line of the stderr
    text, hence no more diagnostics than lines, and exactly one
    decoration and one sidebar entry per diagnostic. *)
Theorem X4_diagnostic_count :
  forall text : option string,
    let ds := extractDiagnostics text in
    (List.length ds <= List.length (filter matches (stderr_lines text)))%nat
    /\ (List.length (filter matches (stderr_lines text))
        <= List.length (stderr_lines text))%nat
    /\ List.length (decorations ds) = List.length ds
    /\ List.length (entries ds) = List.length ds.
Proof.
  intros text ds.
  assert (Hk : List.length (keys ds) = List.length ds).
  { rewrite (Permutation_length (keys_perm ds)). apply length_map. }
  repeat split.
  - rewrite <- (length_map fst ds). fold (own_names ds). unfold ds.
    rewrite extract_stderr_lines, own_names_errorMap. unfold insertion_order.
    rewrite <- length_matched_keys. apply length_first_occurrences.
  - apply filter_length_le.
  - unfold decorations. now rewrite length_map.
  - unfold entries. now rewrite length_map.
Qed.

(** ** Further properties: annotations and keys *)

Lemma stderr_lines_no_LF (text : option string) (l : string) :
  In l (stderr_lines text) -> contains_char LF l = false.
Proof.
  destruct text as [s|]; [|intros []]. cbn [stderr_lines].
  pose proof (split_no_LF s) as H. rewrite Forall_forall in H. apply H.
Qed.

Lemma extract_get_own (text : option string) (k msg : string) :
  get_own (extractDiagnostics text) k = Some msg ->
  last_with_key k (stderr_lines text) = Some msg.
Proof.
  rewrite extract_stderr_lines. unfold errorMap. rewrite get_own_fold.
  destruct (last_with_key k (stderr_lines text)); [trivial | discriminate].
Qed.

(** X5.  Every annotation, whatever its line index, carries as hover text
    a whole line of the stderr text in which the pattern occurs (never
    [undefined], never an inherited property, never a text with a line
    feed), and it is placed on the line computed from the key of that
    line, as a whole-line range that starts and ends there. *)
Theorem X5_annotation_message :
  forall (text : option string) (a : Decoration),
    In a (toAnnotations (extractDiagnostics text)) ->
    exists line d,
      In line (stderr_lines text) /\ first_match line d
      /\ contains_char LF line = false
      /\ hoverMessage a = VString line
      /\ startLineNumber (range a) = displayLine (ToString (lineNumber d))
      /\ endLineNumber (range a) = startLineNumber (range a)
      /\ startColumn (range a) = 1 /\ endColumn (range a) = 1
      /\ isWholeLine a = true.
Proof.
  intros text a Ha. unfold toAnnotations, decorations in Ha.
  apply in_map_iff in Ha as (k & <- & Hk).
  apply keys_In, get_own_In in Hk as [msg Hmsg].
  pose proof (extract_get_own text k msg Hmsg) as Hlast.
  apply last_with_key_spec in Hlast as [Hin Hkey].
  apply key_of_inv in Hkey as (d & Hm & ->).
  exists msg, d. unfold decoration, get. rewrite Hmsg. simpl.
  repeat split; auto. now apply (stderr_lines_no_LF text).
Qed.

Lemma X5_witness :
  In (decoration (extractDiagnostics (Some traceback)) "2")
     (toAnnotations (extractDiagnostics (Some traceback)))
  /\ exists line d,
       In line (stderr_lines (Some traceback)) /\ first_match line d
       /\ hoverMessage (decoration (extractDiagnostics (Some traceback)) "2")
          = VString line.
Proof.
  assert (H : In (decoration (extractDiagnostics (Some traceback)) "2")
                 (toAnnotations (extractDiagnostics (Some traceback))))
    by (vm_compute; left; reflexivity).
  split; [exact H|].
  destruct (X5_annotation_message (Some traceback) _ H)
    as (line & d & Hin & Hm & _ & Hh & _).
  exists line, d. auto.
Defined.

Lemma parseInt_ToString_safe (z : Z) :
  -1 <= z < 2 ^ 53 -> parseInt (ToString (Finite z)) = Finite z.
Proof.
  intros Hz. destruct (Z.eq_dec z (-1)) as [->|Hn].
  - apply parseInt_minus_1.
  - apply parseInt_ToString; [lia | apply round_nonneg_small; lia].
Qed.

Lemma lineNumber_value (d1 d2 : string) :
  d1 <> "" -> all_digits d1 = true -> d2 <> "" -> all_digits d2 = true ->
  digits_value d1 0 = digits_value d2 0 -> lineNumber d1 = lineNumber d2.
Proof.
  intros N1 D1 N2 D2 E. unfold lineNumber.
  now rewrite (parseInt_digits d1), (parseInt_digits d2), E.
Qed.

(** X6.  Below 2^53 two matching lines are filed under the same key
    exactly when their digit runs denote the same number (leading zeros
    do not count); lines that report different numbers never overwrite
    each other. *)
Theorem X6_key_identifies_number :
  forall (m : obj) (l1 l2 d1 d2 : string),
    first_match l1 d1 -> first_match l2 d2 ->
    digits_value d1 0 <= 2 ^ 53 -> digits_value d2 0 <= 2 ^ 53 ->
    (key_of l1 = key_of l2 <-> digits_value d1 0 = digits_value d2 0)
    /\ (digits_value d1 0 <> digits_value d2 0 ->
        get_own (record_line (record_line m l1) l2) (ToString (lineNumber d1))
        = Some l1).
Proof.
  intros m l1 l2 d1 d2 H1 H2 B1 B2.
  pose proof (key_of_first_match l1 d1 H1) as K1.
  pose proof (key_of_first_match l2 d2 H2) as K2.
  apply regex_match_first in H1, H2.
  destruct (regex_match_digits l1 d1 H1) as [N1 D1].
  destruct (regex_match_digits l2 d2 H2) as [N2 D2].
  pose proof (digits_value_ge d1 0 D1 ltac:(lia)) as P1.
  pose proof (digits_value_ge d2 0 D2 ltac:(lia)) as P2.
  assert (Hiff : key_of l1 = key_of l2 <-> digits_value d1 0 = digits_value d2 0).
  { rewrite K1, K2. split.
    - intros E. injection E as E.
      rewrite (lineNumber_exact d1), (lineNumber_exact d2) in E by assumption.
      apply (f_equal parseInt) in E.
      rewrite !parseInt_ToString_safe in E by lia.
      injection E as E. lia.
    - intros E. now rewrite (lineNumber_value d1 d2). }
  split; [exact Hiff|].
  intros Hne. rewrite !get_own_record_line.
  assert (F : has_key (ToString (lineNumber d1)) l2 = false).
  { destruct (has_key (ToString (lineNumber d1)) l2) eqn:E; [|reflexivity].
    apply has_key_true in E. exfalso. apply Hne, Hiff. congruence. }
  rewrite F. apply has_key_true in K1. now rewrite K1.
Qed.

Lemma X6_witness :
  first_match "at line 007" "007" /\ first_match "see line 7" "7"
  /\ digits_value "007" 0 <= 2 ^ 53 /\ digits_value "7" 0 <= 2 ^ 53
  /\ (key_of "at line 007" = key_of "see line 7"
      <-> digits_value "007" 0 = digits_value "7" 0).
Proof.
  assert (H1 : first_match "at line 007" "007")
    by (apply regex_match_first; vm_compute; reflexivity).
  assert (H2 : first_match "see line 7" "7")
    by (apply regex_match_first; vm_compute; reflexivity).
  assert (B1 : digits_value "007" 0 <= 2 ^ 53) by (vm_compute; discriminate).
  assert (B2 : digits_value "7" 0 <= 2 ^ 53) by (vm_compute; discriminate).
  repeat (split; [assumption|]).
  exact (proj1 (X6_key_identifies_number empty _ _ _ _ H1 H2 B1 B2)).
Defined.

(** ** Further properties: the line that is shown *)

Lemma decimal_fuel_lower (f : nat) (n : Z) :
  0 < n < 2 ^ Z.of_nat f ->
  10 ^ (Z.of_nat (String.length (decimal_fuel f n "")) - 1) <= n.
Proof.
  revert n. induction f as [|f IH]; intros n Hn.
  - simpl in Hn. lia.
  - cbn [decimal_fuel]. destruct (Z.ltb_spec n 10) as [Hlt|Hge].
    + simpl. lia.
    + rewrite decimal_fuel_acc, append_length. cbn [String.length].
      assert (Hq : 0 < n / 10 < 2 ^ Z.of_nat f).
      { split; [apply Z.div_str_pos; lia|].
        apply Z.div_lt_upper_bound; [lia|].
        rewrite Nat2Z.inj_succ, Z.pow_succ_r in Hn by lia. lia. }
      specialize (IH (n / 10) Hq).
      set (L := String.length (decimal_fuel f (n / 10) "")) in *.
      pose proof (Z.div_mod n 10 ltac:(lia)) as Hdm.
      pose proof (Z.mod_pos_bound n 10 ltac:(lia)) as Hmod.
      replace (Z.of_nat (L + 1) - 1) with (Z.of_nat L) by lia.
      destruct L as [|L'].
      * simpl. lia.
      * replace (Z.of_nat (S L')) with (Z.succ (Z.of_nat (S L') - 1)) by lia.
        rewrite Z.pow_succ_r by lia. lia.
Qed.

Lemma canonical_bounds (d : string) :
  canonical d = true ->
  d <> "" /\ all_digits d = true
  /\ (d = "0" \/ 10 ^ (Z.of_nat (String.length d) - 1) <= digits_value d 0).
Proof.
  unfold canonical. destruct d as [|c r]; [discriminate|].
  intros H. apply andb_true_iff in H as [Hd Hz].
  split; [discriminate | split; [exact Hd|]].
  pose proof Hd as Hd'. cbn [all_digits] in Hd'.
  apply andb_true_iff in Hd' as [Hc Hr]. apply is_digit_spec in Hc.
  destruct (Z.eq_dec (digit_value c) 0) as [E|Hn].
  - change 0 with (digit_value "0") in E. apply digit_value_inj in E. subst c.
    simpl in Hz. apply String.eqb_eq in Hz. subst r. now left.
  - right. cbn [digits_value String.length]. rewrite digits_value_shift.
    pose proof (digits_value_bound r Hr).
    replace (Z.of_nat (S (String.length r)) - 1)
      with (Z.of_nat (String.length r)) by lia.
    nia.
Qed.

(** Printing the value of a canonical numeral gives the numeral back. *)
Lemma decimal_canonical (d : string) :
  canonical d = true -> decimal (digits_value d 0) = d.
Proof.
  intros Hc. destruct (canonical_bounds d Hc) as (Hne & Hd & [->|Hlow]);
    [reflexivity|].
  assert (Hlen : (1 <= String.length d)%nat)
    by (destruct d; [contradiction | cbn [String.length]; lia]).
  set (n := digits_value d 0) in *.
  pose proof (digits_value_bound d Hd) as Hup. fold n in Hup.
  assert (Hn : 0 < n).
  { assert (0 < 10 ^ (Z.of_nat (String.length d) - 1)); [|lia].
    apply Z.pow_pos_nonneg; lia. }
  pose proof (decimal_digits n ltac:(lia)) as Dd.
  pose proof (decimal_value n ltac:(lia)) as Dv.
  pose proof (digits_value_bound (decimal n) Dd) as Dup. rewrite Dv in Dup.
  assert (Dlow : 10 ^ (Z.of_nat (String.length (decimal n)) - 1) <= n).
  { apply decimal_fuel_lower. split; [assumption | apply fuel_enough; lia]. }
  apply digits_same_length; auto.
  destruct (Nat.lt_trichotomy (String.length (decimal n)) (String.length d))
    as [Hlt|[Heq|Hgt]]; [exfalso | exact Heq | exfalso].
  - assert (10 ^ Z.of_nat (String.length (decimal n))
            <= 10 ^ (Z.of_nat (String.length d) - 1))
      by (apply Z.pow_le_mono_r; lia).
    lia.
  - assert (10 ^ Z.of_nat (String.length d)
            <= 10 ^ (Z.of_nat (String.length (decimal n)) - 1))
      by (apply Z.pow_le_mono_r; lia).
    lia.
Qed.

(** X7.  For a digit run that denotes a number n below 2^53, the
    decoration and the sidebar entry show line n again: the key written
    for n - 1 is read back and incremented to n, and the entry reads
    "Line n: " followed by the whole line; when the digit run has no
    superfluous leading zeros, the number shown is the digit run itself. *)
Theorem X7_shown_line_is_reported_line :
  forall (line d : string),
    first_match line d -> digits_value d 0 < 2 ^ 53 ->
    let n := digits_value d 0 in
    let k := ToString (lineNumber d) in
    displayLine k = Finite n
    /\ startLineNumber (range (decoration [(k, line)] k)) = Finite n
    /\ itemText (errorItem (k, VString line)) = "Line " ++ decimal n ++ ": " ++ line
    /\ ariaLabel (errorItem (k, VString line)) = "Error at line " ++ decimal n
    /\ (canonical d = true -> decimal n = d).
Proof.
  intros line d Hm Hb n k. apply regex_match_first in Hm.
  destruct (regex_match_digits line d Hm) as [Hne Hd].
  pose proof (digits_value_ge d 0 Hd ltac:(lia)) as Hpos. fold n in Hpos, Hb.
  assert (Hl : lineNumber d = Finite (n - 1))
    by (apply lineNumber_exact; auto; fold n; lia).
  assert (Hshown : displayLine k = Finite n).
  { unfold k. rewrite (displayLine_lineNumber d (n - 1)); auto; [|lia].
    rewrite add_int_exact by lia. f_equal. lia. }
  assert (Hs : ToString (Finite n) = decimal n) by (apply ToString_safe; lia).
  split; [exact Hshown | split; [exact Hshown|]].
  unfold errorItem. cbn [itemText ariaLabel render_value].
  rewrite Hshown, Hs. repeat split. apply decimal_canonical.
Qed.

Lemma X7_witness :
  first_match traceback_head "3" /\ digits_value "3" 0 < 2 ^ 53
  /\ displayLine (ToString (lineNumber "3")) = Finite (digits_value "3" 0)
  /\ itemText (errorItem (ToString (lineNumber "3"), VString traceback_head))
     = "Line " ++ decimal (digits_value "3" 0) ++ ": " ++ traceback_head.
Proof.
  assert (Hm : first_match traceback_head "3")
    by (apply regex_match_first; vm_compute; reflexivity).
  assert (Hb : digits_value "3" 0 < 2 ^ 53) by reflexivity.
  split; [exact Hm | split; [exact Hb|]].
  destruct (X7_shown_line_is_reported_line traceback_head "3" Hm Hb)
    as (H1 & _ & H3 & _).
  split; assumption.
Defined.

(** ** Further properties: the order of the stream *)

Lemma Permutation_filter {A : Type} (f : A -> bool) (l1 l2 : list A) :
  Permutation l1 l2 -> Permutation (filter f l1) (filter f l2).
Proof.
  induction 1 as [|x l1 l2 _ IH|x y l|l1 l2 l3 _ IH1 _ IH2]; simpl.
  - constructor.
  - destruct (f x); [now constructor | exact IH].
  - destruct (f x), (f y); try reflexivity. apply perm_swap.
  - now transitivity (filter f l2).
Qed.

Lemma filter_none {A : Type} (f : A -> bool) (l : list A) :
  (forall x, In x l -> f x = false) -> filter f l = [].
Proof.
  induction l as [|h t IH]; intros H; simpl; [reflexivity|].
  rewrite (H h) by now left. apply IH. intros x Hx. apply H. now right.
Qed.

(** An ascending list is determined by its elements. *)
Lemma ascending_unique (l1 l2 : list string) :
  ascending l1 -> ascending l2 -> Permutation l1 l2 -> l1 = l2.
Proof.
  unfold ascending. intros H1. revert l2.
  induction H1 as [|h1 t1 Ht1 IH Hh1]; intros l2 H2 Hp.
  - apply Permutation_nil in Hp. now subst.
  - destruct H2 as [|h2 t2 Ht2 Hh2].
    + apply Permutation_sym, Permutation_nil in Hp. discriminate.
    + rewrite Forall_forall in Hh1, Hh2.
      assert (E : h1 = h2).
      { assert (I1 : In h1 (h2 :: t2))
          by (apply (Permutation_in _ Hp); now left).
        assert (I2 : In h2 (h1 :: t1))
          by (apply (Permutation_in _ (Permutation_sym Hp)); now left).
        destruct I1 as [->|I1]; [reflexivity|].
        destruct I2 as [->|I2]; [reflexivity|].
        specialize (Hh1 _ I2). specialize (Hh2 _ I1). lia. }
      subst h2. f_equal. apply IH; [assumption|].
      now apply Permutation_cons_inv in Hp.
Qed.

Lemma own_names_errorMap_perm (ls1 ls2 : list string) :
  Permutation ls1 ls2 ->
  Permutation (own_names (errorMap ls1)) (own_names (errorMap ls2)).
Proof.
  intros Hp. apply NoDup_Permutation; try apply NoDup_errorMap.
  intros k. rewrite !errorMap_In. split; intros (l & Hin & Hk); exists l;
    (split; [|exact Hk]).
  - now apply (Permutation_in _ Hp).
  - now apply (Permutation_in _ (Permutation_sym Hp)).
Qed.

(** X8.  Reordering the lines of the stderr text does not change which
    line indices get a diagnostic, and it does not change the order of the
    annotations whose line index is an array index: they come first, in
    the same ascending order.  Only the annotations with other indices
    (-1, or 2^32 - 1 and more) follow the order of the stream. *)
Theorem X8_order_of_stream :
  forall text1 text2 : option string,
    Permutation (stderr_lines text1) (stderr_lines text2) ->
    let e1 := extractDiagnostics text1 in
    let e2 := extractDiagnostics text2 in
    Permutation (own_names e1) (own_names e2)
    /\ exists indices,
         ascending indices
         /\ keys e1 = (indices
                       ++ filter (fun k => negb (is_array_index k))
                            (own_names e1))%list
         /\ keys e2 = (indices
                       ++ filter (fun k => negb (is_array_index k))
                            (own_names e2))%list
         /\ (Forall (fun k => is_array_index k = true) (own_names e1) ->
             keys e1 = keys e2).
Proof.
  intros text1 text2 Hp e1 e2.
  assert (Hn : Permutation (own_names e1) (own_names e2)).
  { unfold e1, e2. rewrite !extract_stderr_lines.
    now apply own_names_errorMap_perm. }
  assert (Nd1 : NoDup (own_names e1))
    by (unfold e1; rewrite extract_stderr_lines; apply NoDup_errorMap).
  assert (Nd2 : NoDup (own_names e2))
    by (unfold e2; rewrite extract_stderr_lines; apply NoDup_errorMap).
  assert (Hs : sort_indices (filter is_array_index (own_names e1))
               = sort_indices (filter is_array_index (own_names e2))).
  { apply ascending_unique; try now apply sort_indices_ascending.
    eapply Permutation_trans; [apply sort_indices_perm|].
    eapply Permutation_trans; [|symmetry; apply sort_indices_perm].
    now apply Permutation_filter. }
  split; [exact Hn|].
  exists (sort_indices (filter is_array_index (own_names e1))).
  split; [now apply sort_indices_ascending|].
  split; [reflexivity|]. split; [unfold keys; now rewrite Hs|].
  intros Hall. unfold keys. rewrite Hs. f_equal.
  assert (F1 : filter (fun k => negb (is_array_index k)) (own_names e1) = []).
  { apply filter_none. rewrite Forall_forall in Hall.
    intros x Hx. now rewrite (Hall x Hx). }
  rewrite F1.
  assert (P : Permutation
                (filter (fun k => negb (is_array_index k)) (own_names e1))
                (filter (fun k => negb (is_array_index k)) (own_names e2)))
    by now apply Permutation_filter.
  rewrite F1 in P. apply Permutation_nil in P. now rewrite P.
Qed.

Lemma X8_witness :
  Permutation (stderr_lines (Some ("line 5" ++ nl ++ "line 3")))
              (stderr_lines (Some ("line 3" ++ nl ++ "line 5")))
  /\ keys (extractDiagnostics (Some ("line 5" ++ nl ++ "line 3")))
     = keys (extractDiagnostics (Some ("line 3" ++ nl ++ "line 5"))).
Proof.
  assert (Hp : Permutation (stderr_lines (Some ("line 5" ++ nl ++ "line 3")))
                           (stderr_lines (Some ("line 3" ++ nl ++ "line 5"))))
    by (vm_compute; apply perm_swap).
  split; [exact Hp|].
  destruct (X8_order_of_stream _ _ Hp) as (_ & idx & _ & _ & _ & H).
  apply H.
  assert (E : own_names (extractDiagnostics (Some ("line 5" ++ nl ++ "line 3")))
              = ["4"; "2"]) by (vm_compute; reflexivity).
  rewrite E. repeat constructor.
Defined.

(** ** Further properties: the sidebar *)

Lemma extract_empty_iff (text : option string) :
  extractDiagnostics text = empty
  <-> forall l, In l (stderr_lines text) -> ~ contains_pattern l.
Proof.
  rewrite extract_stderr_lines. split.
  - intros E l Hl. apply key_of_none.
    destruct (key_of l) as [k|] eqn:Hk; [|reflexivity].
    assert (H : In k (own_names (errorMap (stderr_lines text))))
      by (apply errorMap_In; eauto).
    rewrite E in H. destruct H.
  - intros H. apply errorMap_none. intros l Hl. now apply key_of_none, H.
Qed.

Lemma keys_nil (o : obj) : keys o = [] <-> o = [].
Proof.
  split.
  - intros E. pose proof (Permutation_length (keys_perm o)) as H.
    rewrite E in H. unfold own_names in H. rewrite length_map in H.
    destruct o; [reflexivity | discriminate].
  - intros ->. reflexivity.
Qed.

Lemma errorBox_cases (o : obj) :
  (o = [] /\ errorBox o = NoErrors)
  \/ (o <> [] /\ errorBox o = ErrorList (map errorItem (entries o))).
Proof.
  unfold errorBox. destruct (keys o) as [|k ks] eqn:E.
  - left. split; [now apply keys_nil | reflexivity].
  - right. split; [|reflexivity]. intros H. apply keys_nil in H. congruence.
Qed.

Lemma itemKey_entries (o : obj) :
  map itemKey (map errorItem (entries o)) = keys o.
Proof.
  unfold entries. rewrite !map_map. simpl. apply map_id.
Qed.

(** X9.  The error box of the sidebar says "No errors" exactly when no
    line of the stderr text contains the pattern.  Otherwise it lists one
    item per diagnostic, in the order of [Object.keys]; the React keys of
    the items are pairwise distinct, and each item shows a whole matching
    line of the text after the line computed from its key. *)
Theorem X9_error_box :
  forall text : option string,
    let ds := extractDiagnostics text in
    (errorBox ds = NoErrors
     <-> forall l, In l (stderr_lines text) -> ~ contains_pattern l)
    /\ forall items,
         errorBox ds = ErrorList items ->
         items <> []
         /\ map itemKey items = keys ds
         /\ NoDup (map itemKey items)
         /\ forall it, In it items ->
              exists line d,
                In line (stderr_lines text) /\ first_match line d
                /\ itemKey it = ToString (lineNumber d)
                /\ tooltipLabel it = VString line
                /\ itemText it
                   = "Line " ++ ToString (displayLine (itemKey it)) ++ ": "
                     ++ line.
Proof.
  intros text ds. split.
  - rewrite <- extract_empty_iff. fold ds.
    destruct (errorBox_cases ds) as [[E B]|[E B]]; rewrite B.
    + split; auto.
    + split; [discriminate | intros H; contradiction].
  - intros items Hb.
    destruct (errorBox_cases ds) as [[E B]|[E B]]; rewrite B in Hb;
      [discriminate|]. injection Hb as <-.
    assert (Hk : map itemKey (map errorItem (entries ds)) = keys ds)
      by apply itemKey_entries.
    split; [|split; [exact Hk | split]].
    + intros H. rewrite H in Hk. symmetry in Hk. apply keys_nil in Hk.
      contradiction.
    + rewrite Hk. eapply Permutation_NoDup; [symmetry; apply keys_perm|].
      unfold ds. rewrite extract_stderr_lines. apply NoDup_errorMap.
    + intros it Hit. apply in_map_iff in Hit as ([k v] & <- & Hin).
      unfold entries in Hin. apply in_map_iff in Hin as (k' & E' & Hk').
      injection E' as -> <-.
      apply keys_In, get_own_In in Hk' as [msg Hmsg].
      pose proof (extract_get_own text k msg Hmsg) as Hlast.
      apply last_with_key_spec in Hlast as [Hin Hkey].
      apply key_of_inv in Hkey as (d & Hm & ->).
      exists msg, d. unfold get. fold ds. rewrite Hmsg. simpl. auto.
Qed.

Lemma X9_witness :
  errorBox (extractDiagnostics (Some traceback))
  = ErrorList (map errorItem (entries (extractDiagnostics (Some traceback))))
  /\ NoDup (map itemKey
              (map errorItem (entries (extractDiagnostics (Some traceback))))).
Proof.
  assert (H : errorBox (extractDiagnostics (Some traceback))
              = ErrorList
                  (map errorItem (entries (extractDiagnostics (Some traceback)))))
    by (vm_compute; reflexivity).
  split; [exact H|].
  exact (proj1 (proj2 (proj2
           (proj2 (X9_error_box (Some traceback)) _ H)))).
Defined.

(** ** Further properties: what a run leaves alone *)



(** X11.  An answer of the service on which [result.run] is missing is
    handled like a failure of the service: reading [stderr] throws inside
    the [try], the run still resolves, one entry is written to the
    console, and the diagnostics, the output and the editor stay as they
    were. *)
Theorem X11_malformed_answer :
  forall (executeCode : string -> string -> Outcome) (st : State) (ed : Editor),
    editorRef st = Some ed -> getValue ed <> "" ->
    executeCode (language st) (getValue ed) = Returns {| run := None |} ->
    exists st' entry,
      runCode executeCode st = Resolved st'
      /\ errors st' = errors st
      /\ output st' = output st
      /\ editorRef st' = editorRef st
      /\ sidebar st' = sidebar st
      /\ console st' = (console st ++ [entry])%list.
Proof.
  intros executeCode st ed Hed Hsrc Hexec.
  exists (consoleError st "TypeError"), "Error executing code: TypeError".
  unfold runCode. rewrite Hed.
  destruct (getValue ed) as [|c s] eqn:Hv; [congruence|].
  rewrite Hexec. simpl. repeat split; auto.
Qed.

Lemma X11_witness :
  editorRef mounted = Some sampleEditor /\ getValue sampleEditor <> ""
  /\ exists st', runCode (fun _ _ => Returns {| run := None |}) mounted
                 = Resolved st'
                 /\ errors st' = errors mounted.
Proof.
  assert (H1 : editorRef mounted = Some sampleEditor) by reflexivity.
  assert (H2 : getValue sampleEditor <> "") by (simpl; discriminate).
  repeat (split; [assumption|]).
  destruct (X11_malformed_answer (fun _ _ => Returns {| run := None |})
              mounted sampleEditor H1 H2 eq_refl) as (st' & entry & R & E & _).
  exists st'. split; assumption.
Defined.

(** X13.  A failed run cannot be told from a run that printed nothing:
    starting without diagnostics and output, a run whose service throws
    and a run whose answer has an empty stdout and no matching stderr line
    leave the same sidebar ("Output will appear here", "No errors") and
    the same decorations in the editor. *)
Theorem X13_failure_looks_like_silence :
  forall (failing silent : string -> string -> Outcome) (st : State)
         (ed : Editor) (error : string) (r : Run),
    editorRef st = Some ed -> getValue ed <> "" ->
    errors st = empty -> output st = "" ->
    failing (language st) (getValue ed) = Throws error ->
    silent (language st) (getValue ed) = Returns {| run := Some r |} ->
    outputLines (stdout r) = "" ->
    (forall l, In l (stderr_lines (stderr r)) -> ~ contains_pattern l) ->
    exists st1 st2 ed1 ed2,
      runCode failing st = Resolved st1 /\ runCode silent st = Resolved st2
      /\ sidebar st1 = sidebar st2
      /\ sidebar st1 = {| outputText := "Output will appear here";
                          errorBoxContent := NoErrors |}
      /\ editorRef st1 = Some ed1 /\ editorRef st2 = Some ed2
      /\ editorDecorations ed1 = editorDecorations ed2.
Proof.
  intros failing silent st ed error r Hed Hsrc Herr Hout Hf Hs Hstd Hnone.
  apply extract_empty_iff in Hnone.
  exists (consoleError st error), (showResult st ed r), ed,
    (deltaDecorations ed (decorations (extractDiagnostics (stderr r)))).
  split.
  { unfold runCode. rewrite Hed.
    destruct (getValue ed) as [|c s] eqn:Hv; [congruence|]. now rewrite Hf. }
  split; [now apply runCode_returns|].
  unfold sidebar. simpl. rewrite Herr, Hout, Hstd, Hnone. simpl.
  rewrite app_nil_r. repeat split; assumption.
Qed.

Lemma X13_witness :
  editorRef mounted = Some sampleEditor /\ getValue sampleEditor <> ""
  /\ errors mounted = empty /\ output mounted = ""
  /\ exists st1 st2,
       runCode failingService mounted = Resolved st1
       /\ runCode (answering {| stdout := Some ""; stderr := Some "" |}) mounted
          = Resolved st2
       /\ sidebar st1 = sidebar st2.
Proof.
  assert (H1 : editorRef mounted = Some sampleEditor) by reflexivity.
  assert (H2 : getValue sampleEditor <> "") by (simpl; discriminate).
  assert (H3 : errors mounted = empty) by reflexivity.
  assert (H4 : output mounted = "") by reflexivity.
  repeat (split; [assumption|]).
  destruct (X13_failure_looks_like_silence failingService
              (answering {| stdout := Some ""; stderr := Some "" |})
              mounted sampleEditor "Network Error"
              {| stdout := Some ""; stderr := Some "" |}
              H1 H2 H3 H4 eq_refl eq_refl eq_refl)
    as (st1 & st2 & ed1 & ed2 & R1 & R2 & S & _).
  - intros l [<-|[]]. apply regex_match_none. reflexivity.
  - exists st1, st2. repeat split; assumption.
Defined.

(** ** Further properties: lines that do not count *)

Lemma record_line_no_match (m : obj) (l : string) :
  matches l = false -> record_line m l = m.
Proof.
  unfold matches, record_line. now destruct (regex_match l).
Qed.

Lemma fold_filter_matches (ls : list string) (m : obj) :
  fold_left record_line (filter matches ls) m = fold_left record_line ls m.
Proof.
  revert m. induction ls as [|l ls IH]; intros m; simpl; [reflexivity|].
  destruct (matches l) eqn:E; simpl; [apply IH|].
  now rewrite (record_line_no_match m l E).
Qed.

(** X14.  Lines in which the pattern does not occur leave no trace:
    the set of a text is the set of its matching lines alone, so adding or
    removing other lines anywhere changes nothing; in particular a line
    feed at the end of the text, or an empty text in front, makes no
    difference. *)
Theorem X14_unmatched_lines_leave_no_trace :
  (forall text : option string,
      extractDiagnostics text = errorMap (filter matches (stderr_lines text)))
  /\ (forall text1 text2 : option string,
         filter matches (stderr_lines text1) = filter matches (stderr_lines text2) ->
         extractDiagnostics text1 = extractDiagnostics text2)
  /\ (forall s : string,
         extractDiagnostics (Some (s ++ nl)) = extractDiagnostics (Some s)
         /\ extractDiagnostics (Some (nl ++ s)) = extractDiagnostics (Some s)).
Proof.
  assert (H : forall text,
             extractDiagnostics text = errorMap (filter matches (stderr_lines text))).
  { intros text. rewrite extract_stderr_lines. unfold errorMap.
    now rewrite fold_filter_matches. }
  split; [exact H | split].
  - intros text1 text2 E. now rewrite (H text1), (H text2), E.
  - intros s. split.
    + replace (s ++ nl) with (s ++ nl ++ "") by now rewrite append_nil_r.
      rewrite !extract_stderr_lines. cbn [stderr_lines]. rewrite split_app.
      unfold errorMap. now rewrite fold_left_app.
    + rewrite !extract_stderr_lines. reflexivity.
Qed.

Lemma X14_witness :
  filter matches (stderr_lines (Some traceback))
  = filter matches (stderr_lines (Some traceback_head))
  /\ extractDiagnostics (Some traceback) = extractDiagnostics (Some traceback_head).
Proof.
  assert (H : filter matches (stderr_lines (Some traceback))
              = filter matches (stderr_lines (Some traceback_head)))
    by (vm_compute; reflexivity).
  split; [exact H|].
  exact (proj1 (proj2 X14_unmatched_lines_leave_no_trace) _ _ H).
Defined.

Lemma strip_prefix_snoc (p s : string) (c : ascii) :
  contains_char c p = false ->
  strip_prefix p (s ++ String c "")
  = match strip_prefix p s with
    | Some r => Some (r ++ String c "")
    | None => None
    end.
Proof.
  revert s. induction p as [|a p IH]; intros s Hc; [reflexivity|].
  cbn [contains_char] in Hc. apply orb_false_iff in Hc as [Hac Hp].
  destruct s as [|b s]; cbn [append strip_prefix].
  - now rewrite Hac.
  - destruct (Ascii.eqb a b); [now apply IH | reflexivity].
Qed.

Lemma take_digits_snoc (r : string) (c : ascii) :
  is_digit c = false -> take_digits (r ++ String c "") = take_digits r.
Proof.
  intros Hc. induction r as [|x r IH]; simpl; [now rewrite Hc|].
  destruct (is_digit x); [now rewrite IH | reflexivity].
Qed.

Lemma match_here_snoc (s : string) (c : ascii) :
  is_digit c = false -> contains_char c "line " = false ->
  match_here (s ++ String c "") = match_here s.
Proof.
  intros Hd Hc. unfold match_here. rewrite strip_prefix_snoc by assumption.
  destruct (strip_prefix "line " s) as [r|]; [|reflexivity].
  now rewrite take_digits_snoc.
Qed.

Lemma regex_match_snoc (l : string) (c : ascii) :
  is_digit c = false -> contains_char c "line " = false ->
  regex_match (l ++ String c "") = regex_match l.
Proof.
  intros Hd Hc. induction l as [|x l IH].
  - cbn [append]. rewrite regex_match_eq.
    change (String c "") with ("" ++ String c "") at 1.
    rewrite match_here_snoc by assumption. reflexivity.
  - rewrite (regex_match_eq (String x l ++ String c "")),
      (regex_match_eq (String x l)).
    rewrite match_here_snoc by assumption.
    destruct (match_here (String x l)); [reflexivity | exact IH].
Qed.

(** X15.  A character after the end of a line that is neither a digit nor
    one of the characters of "line " does not change the match: with
    carriage returns before the line feeds, every line is filed under the
    same key as without them, and the carriage return stays in the
    message. *)
Theorem X15_trailing_character :
  forall (m : obj) (line : string) (c : ascii),
    is_digit c = false -> contains_char c "line " = false ->
    regex_match (line ++ String c "") = regex_match line
    /\ key_of (line ++ String c "") = key_of line
    /\ forall k, key_of line = Some k ->
         get_own (record_line m (line ++ String c "")) k
         = Some (line ++ String c "").
Proof.
  intros m line c Hd Hc.
  assert (E : regex_match (line ++ String c "") = regex_match line)
    by now apply regex_match_snoc.
  assert (K : key_of (line ++ String c "") = key_of line)
    by (unfold key_of; now rewrite E).
  split; [exact E | split; [exact K|]].
  intros k Hk. rewrite get_own_record_line.
  rewrite <- K in Hk. apply has_key_true in Hk. now rewrite Hk.
Qed.

Lemma X15_witness :
  is_digit "013" = false /\ contains_char "013" "line " = false
  /\ key_of (traceback_head ++ String "013" "") = key_of traceback_head.
Proof.
  assert (H1 : is_digit "013" = false) by reflexivity.
  assert (H2 : contains_char "013" "line " = false) by reflexivity.
  repeat (split; [assumption|]).
  exact (proj1 (proj2 (X15_trailing_character empty traceback_head "013" H1 H2))).
Defined.

(** ** Further properties: line numbers beyond the doubles *)

Lemma round_nonneg_overflow (n : Z) :
  2 ^ 1024 <= n -> round_nonneg n = Inf false.
Proof.
  intros Hn. assert (Hb : 2 ^ 53 <= n) by lia.
  destruct (round_nonneg_big n Hb)
    as [E|(q' & e & E & He & Hq & Hfin & Hqq & Hedef)]; [exact E | exfalso].
  assert (H1024 : 1024 <= Z.log2 n).
  { rewrite <- (Z.log2_pow2 1024) by lia. apply Z.log2_le_mono. lia. }
  assert (Hp : 2 ^ 972 <= 2 ^ e) by (apply Z.pow_le_mono_r; lia).
  assert (Hm : 2 ^ 52 * 2 ^ 972 <= q' * 2 ^ e).
  { apply Z.mul_le_mono_nonneg; try lia. }
  rewrite <- Z.pow_add_r in Hm by lia. change (52 + 972) with 1024 in Hm. lia.
Qed.

(** X16.  A digit run that denotes 2^1024 or more has no finite line
    index: every such line is filed under the one key "Infinity", which
    is not an array index and is read back as NaN, so its decoration and
    its sidebar entry are placed on line NaN. *)
Theorem X16_overflowing_line_number :
  forall (line d : string),
    first_match line d -> 2 ^ 1024 <= digits_value d 0 ->
    lineNumber d = Inf false
    /\ key_of line = Some "Infinity"
    /\ is_array_index "Infinity" = false
    /\ displayLine "Infinity" = NaN
    /\ itemText (errorItem ("Infinity", VString line)) = "Line NaN: " ++ line.
Proof.
  intros line d Hm Hbig.
  pose proof (key_of_first_match line d Hm) as Hk.
  apply regex_match_first in Hm.
  destruct (regex_match_digits line d Hm) as [Hne Hd].
  assert (Hl : lineNumber d = Inf false).
  { unfold lineNumber. rewrite (parseInt_digits d Hne Hd).
    now rewrite round_nonneg_overflow. }
  rewrite Hl in Hk. repeat split; auto.
Qed.

Lemma X16_witness :
  first_match ("line " ++ decimal (2 ^ 1024)) (decimal (2 ^ 1024))
  /\ 2 ^ 1024 <= digits_value (decimal (2 ^ 1024)) 0
  /\ key_of ("line " ++ decimal (2 ^ 1024)) = Some "Infinity".
Proof.
  assert (Hm : first_match ("line " ++ decimal (2 ^ 1024)) (decimal (2 ^ 1024)))
    by (apply regex_match_first; vm_compute; reflexivity).
  assert (Hb : 2 ^ 1024 <= digits_value (decimal (2 ^ 1024)) 0)
    by (vm_compute; discriminate).
  repeat (split; [assumption|]).
  exact (proj1 (proj2 (X16_overflowing_line_number _ _ Hm Hb))).
Defined.
